(** * FactCheck AI Pro (detectorteoria.py): retry wrapper, metric extraction,
      score classification, folder names and evidence formatting

    A shallow embedding of the pure helpers of [detectorteoria.py], of its
    retry decorator and of the run that chains its stages, with the
    properties its specification states about them.

    Conventions.
    - A Python [str] is a list of Unicode code points ([list N]); literals
      are written [u "..."] and decoded from the UTF-8 bytes of the file.
    - The interpreter's tables that are not part of the repository (which
      non-ASCII code points are alphanumeric, their decimal value, their
      upper-case mapping) and its digit limit for [int()] are the fields of
      the class [Runtime]; everything about ASCII is computed.
    - A [dict] with literal keys is a [gmap string _]; a [dict] looked up
      with a run-time string is a [gmap str _].
    - A call of a library that acts on the outside (the console, the clock,
      the progress display, the search and generation services) is an
      operation on a world that returns or raises; none is taken to
      return. *)

From Stdlib Require Import ZArith NArith QArith List String Ascii DecimalString.
From stdpp Require Import gmap strings list.

Local Open Scope N_scope.

(* ===================================================================== *)
(** ** Python strings                                                    *)
(* ===================================================================== *)

Abbreviation str := (list N).

(** UTF-8 decoding of a literal: [pend] is the code point under construction
    and [need] the number of continuation bytes still expected. *)
Fixpoint utf8_decode (pend : N) (need : nat) (bs : str) : str :=
  match bs with
  | [] => []
  | b :: bs' =>
      match need with
      | S k =>
          let cp := pend * 64 + b mod 64 in
          match k with
          | O => cp :: utf8_decode 0 O bs'
          | _ => utf8_decode cp k bs'
          end
      | O =>
          if b <? 128 then b :: utf8_decode 0 O bs'
          else if b <? 224 then utf8_decode (b mod 32) 1%nat bs'
          else if b <? 240 then utf8_decode (b mod 16) 2%nat bs'
          else utf8_decode (b mod 8) 3%nat bs'
      end
  end.

Definition u (s : string) : str :=
  utf8_decode 0 O (map N_of_ascii (list_ascii_of_string s)).

(** The double quote, which a literal cannot hold. *)
Definition dq : str := [34].
(** The line feed. *)
Definition nl : str := [10].

(** [s1 + s2 + ...] on a list of strings. *)
Definition cat (parts : list str) : str := concat parts.

(** [str(i)] and [f"{i}"] for an [int]. *)
Definition str_of_int (i : Z) : str :=
  u (NilZero.string_of_int (Z.to_int i)).

(* ===================================================================== *)
(** ** The interpreter's character tables                                *)
(* ===================================================================== *)

(** What the code takes from the Python runtime and the repository does not
    define. The three tables are consulted for code points from U+0080 on
    only. [int_max_str_digits] is [sys.get_int_max_str_digits()], [0] when
    the limit is off or the interpreter has none. *)
Class Runtime := {
  hi_isalnum : N → bool;
  hi_todecimal : N → option N;
  hi_toupper : N → str;
  int_max_str_digits : nat
}.

Definition between (lo hi c : N) : bool := (lo <=? c) && (c <=? hi).

(** [str.isspace] of one code point, which is also [\s] of [re] and what
    [str.strip()] removes: the whole list of the Unicode database. *)
Definition py_isspace (c : N) : bool :=
  between 9 13 c || between 28 32 c || (c =? 133) || (c =? 160)
  || (c =? 5760) || between 8192 8202 c || (c =? 8232) || (c =? 8233)
  || (c =? 8239) || (c =? 8287) || (c =? 12288).

(** [Py_UNICODE_TODECIMAL]: the value of a decimal digit. *)
Definition py_todecimal `{Runtime} (c : N) : option N :=
  if c <? 128 then (if between 48 57 c then Some (c - 48) else None)
  else hi_todecimal c.

Definition py_isdecimal `{Runtime} (c : N) : bool :=
  match py_todecimal c with Some _ => true | None => false end.

(** [str.isalnum] of one code point. *)
Definition py_isalnum `{Runtime} (c : N) : bool :=
  if c <? 128 then between 48 57 c || between 65 90 c || between 97 122 c
  else hi_isalnum c.

(** The upper-case mapping of one code point (it may be several). *)
Definition py_toupper `{Runtime} (c : N) : str :=
  if c <? 128 then [if between 97 122 c then c - 32 else c]
  else hi_toupper c.

(** [s.upper()]. *)
Definition upper `{Runtime} (s : str) : str := flat_map py_toupper s.

(** [s.strip()]: white space removed at both ends. *)
Fixpoint lstrip (s : str) : str :=
  match s with
  | c :: s' => if py_isspace c then lstrip s' else s
  | [] => []
  end.

Definition rstrip (s : str) : str := reverse (lstrip (reverse s)).

Definition strip (s : str) : str := rstrip (lstrip s).

(** [s.replace(old, new)] for a one-character [old]. *)
Definition replace1 (old : N) (new : str) (s : str) : str :=
  flat_map (λ c, if c =? old then new else [c]) s.

(* ===================================================================== *)
(** ** Regular expressions: the fragment of [re] the program uses        *)
(* ===================================================================== *)

(** [\d], [\s], [\w]. *)
Inductive category := CatDigit | CatSpace | CatWord.

Inductive set_item := InCat (k : category) | InChr (c : N).

(** What matches exactly one character. *)
Inductive atom :=
| AChr (c : N)                     (* a literal character *)
| ACat (k : category)              (* \d \s \w *)
| ANotIn (items : list set_item).  (* [^...] *)

Inductive regex :=
| REps                             (* the empty pattern *)
| RAtom (a : atom)
| RSeq (r1 r2 : regex)
| ROpt (r : regex)                 (* r?  greedy *)
| RStar (a : atom)                 (* a*  greedy *)
| RPlus (a : atom)                 (* a+  greedy *)
| RGroup (r : regex).              (* (r), the pattern's group 1 *)

Definition in_category `{Runtime} (k : category) (c : N) : bool :=
  match k with
  | CatDigit => py_isdecimal c
  | CatSpace => py_isspace c
  | CatWord => py_isalnum c || (c =? 95)
  end.

Definition in_item `{Runtime} (c : N) (i : set_item) : bool :=
  match i with
  | InCat k => in_category k c
  | InChr c' => c =? c'
  end.

Definition atom_matches `{Runtime} (a : atom) (c : N) : bool :=
  match a with
  | AChr c' => c =? c'
  | ACat k => in_category k c
  | ANotIn items => negb (existsb (in_item c) items)
  end.

(** A sequence of patterns, and a literal string as a pattern. *)
Definition RCat (rs : list regex) : regex := foldr RSeq REps rs.

Definition RLit (l : str) : regex := RCat ((λ c, RAtom (AChr c)) <$> l).

Section Matcher.
Context `{Runtime} {A : Type}.

(** The backtracking matcher. [s] is the text from the current position,
    [g] the text of group 1 so far, [k] what remains to be matched; the
    first alternative that lets [k] succeed wins. *)
Fixpoint star (a : atom) (s : str) (g : option str)
    (k : str → option str → option A) : option A :=
  match s with
  | c :: s' =>
      if atom_matches a c then
        match star a s' g k with
        | Some res => Some res
        | None => k s g
        end
      else k s g
  | [] => k s g
  end.

Fixpoint rmatch (r : regex) (s : str) (g : option str)
    (k : str → option str → option A) : option A :=
  match r with
  | REps => k s g
  | RAtom a =>
      match s with
      | c :: s' => if atom_matches a c then k s' g else None
      | [] => None
      end
  | RSeq r1 r2 => rmatch r1 s g (λ s' g', rmatch r2 s' g' k)
  | ROpt r1 =>
      match rmatch r1 s g k with
      | Some res => Some res
      | None => k s g
      end
  | RStar a => star a s g k
  | RPlus a =>
      match s with
      | c :: s' => if atom_matches a c then star a s' g k else None
      | [] => None
      end
  | RGroup r1 =>
      rmatch r1 s g
        (λ s' _, k s' (Some (take (length s - length s') s)))
  end.
End Matcher.

(** A match object: the text matched, [m.group(0)], and the text of group
    1, [None] when the group took no part. *)
Record Match := { group0 : str; group1 : option str }.

(** [re.match(r, s)]: a match at the start of [s]. *)
Definition re_match `{Runtime} (r : regex) (s : str) : option Match :=
  rmatch r s None
    (λ s' g, Some {| group0 := take (length s - length s') s; group1 := g |}).

(** [re.search(r, s)]: the leftmost position with a match. *)
Fixpoint re_search `{Runtime} (r : regex) (s : str) : option Match :=
  match re_match r s with
  | Some m => Some m
  | None =>
      match s with
      | [] => None
      | _ :: s' => re_search r s'
      end
  end.

(** [re.sub(a, repl, s)] for a pattern of one atom. *)
Definition re_sub1 `{Runtime} (a : atom) (repl : str) (s : str) : str :=
  flat_map (λ c, if atom_matches a c then repl else [c]) s.

(* ===================================================================== *)
(** ** Python values and containers                                      *)
(* ===================================================================== *)

(** What a metrics [dict] holds: a string, or [None] (what [m.group(1)]
    is when the group took no part in the match). *)
Inductive value := VStr (s : str) | VNone.

(** [m.group(n)], for a pattern with one group. *)
Definition group (n : nat) (m : Match) : value :=
  match n with
  | O => VStr (group0 m)
  | _ => match group1 m with Some s => VStr s | None => VNone end
  end.

(** [f"{v}"]. *)
Definition format_value (v : value) : str :=
  match v with VStr s => s | VNone => u "None" end.

(** [enumerate(l, start)]. *)
Fixpoint enumerate {A : Type} (start : Z) (l : list A) : list (Z * A) :=
  match l with
  | [] => []
  | x :: l' => (start, x) :: enumerate (start + 1) l'
  end.

(** [range(n)]. *)
Definition range (n : Z) : list Z := Z.of_nat <$> seq 0 (Z.to_nat n).

(** [sep.join(parts)]. *)
Fixpoint join (sep : str) (parts : list str) : str :=
  match parts with
  | [] => []
  | [p] => p
  | p :: rest => p ++ sep ++ join sep rest
  end.

(** One search hit: a [dict] from field names to strings; a key may be
    absent. *)
Abbreviation item := (gmap string str).

(** The search provider's answer: [results] and [answer] may be absent. *)
Record Evidencias := {
  results : option (list item);
  answer : option str
}.

(* ===================================================================== *)
(** ** The program                                                       *)
(* ===================================================================== *)

(** *** [com_retry] *)

Section ComRetry.
Context {World Exc Val Delay : Type}.

(** What one call of the wrapped function does. An exception that is not
    an [Exception] (a [KeyboardInterrupt], say) is not caught by
    [except Exception]. *)
Inductive outcome := Returned (v : Val) | Raised (e : Exc).

(** What the wrapper lets the outside see besides its result: the notices
    it printed (attempt number [i+1], the error, the delay) and the waits
    that are over. *)
Inductive event :=
| Notice (tentativa : Z) (e : Exc) (espera : Delay)
| Sleep (espera : Delay).

(** How the wrapper ends: [return v], the end of the [for] loop (Python
    then returns [None]), or an exception that leaves it. *)
Inductive completion := Returns (v : Val) | ReturnsNone | Raises (e : Exc).

Variable is_Exception : Exc → bool.
Variable func : World → outcome * World.

(** [console.print(f"[yellow]... {i+1} ... {e} ... {espera}s...[/yellow]")]:
    the notice is formatted and printed as console markup, with the text of
    the error inside it. [None] when the call returns, [Some x] when it
    raises [x]: the console refuses a text that is no well-formed markup,
    and the text of the error is the operation's to choose. *)
Variable console_print : Z → Exc → Delay → World → option Exc * World.

(** [time.sleep(espera)]: [None] when the wait is over, [Some x] when it
    raises [x] (a negative delay, an interrupt). *)
Variable time_sleep : Delay → World → option Exc * World.

(** The [for i in range(tentativas)] loop, over the indices left. An
    exception raised in the handler, by the notice or by the wait, leaves
    the wrapper: the [try] does not cover its own [except] clause. *)
Fixpoint wrapper_loop (tentativas : Z) (espera : Delay) (indices : list Z)
    (w : World) (out : list event) : completion * World * list event :=
  match indices with
  | [] => (ReturnsNone, w, out)
  | i :: rest =>
      match func w with
      | (Returned v, w') => (Returns v, w', out)
      | (Raised e, w') =>
          if is_Exception e then
            if (i =? tentativas - 1)%Z then (Raises e, w', out)
            else
              match console_print (i + 1) e espera w' with
              | (Some x, w') => (Raises x, w', out)
              | (None, w') =>
                  match time_sleep espera w' with
                  | (Some x, w') =>
                      (Raises x, w', out ++ [Notice (i + 1) e espera])
                  | (None, w') =>
                      wrapper_loop tentativas espera rest w'
                        (out ++ [Notice (i + 1) e espera; Sleep espera])
                  end
              end
          else (Raises e, w', out)
      end
  end.

(** [com_retry(tentativas, espera)(func)] called in the world [w]. *)
Definition com_retry (tentativas : Z) (espera : Delay) (w : World)
    : completion * World * list event :=
  wrapper_loop tentativas espera (range tentativas) w [].

(** The operation fails [es] in a row from [w] and is retried each time:
    after each failure its notice, the first one numbered [from], is
    printed and its wait is over; [w'] is the world after the last wait. *)
Inductive fails (espera : Delay) : Z → World → list Exc → World → Prop :=
| fails_nil from w : fails espera from w [] w
| fails_cons from w e w1 w2 w3 es w' :
    func w = (Raised e, w1) →
    console_print from e espera w1 = (None, w2) →
    time_sleep espera w2 = (None, w3) →
    fails espera (from + 1) w3 es w' →
    fails espera from w (e :: es) w'.

(** The notices and waits of the failures [es], the first one being
    attempt number [from]. *)
Fixpoint notices (from : Z) (espera : Delay) (es : list Exc) : list event :=
  match es with
  | [] => []
  | e :: es' =>
      Notice from e espera :: Sleep espera :: notices (from + 1) espera es'
  end.

Definition is_notice (ev : event) : bool :=
  match ev with Notice _ _ _ => true | Sleep _ => false end.

(** How many notices the wrapper printed. *)
Definition notice_count (out : list event) : nat :=
  length (List.filter is_notice out).

End ComRetry.

Arguments outcome : clear implicits.
Arguments event : clear implicits.
Arguments completion : clear implicits.

(** The operation with its calls counted beside the world. *)
Definition contada {World Exc Val : Type}
    (func : World → outcome Exc Val * World) (wn : World * nat)
    : outcome Exc Val * (World * nat) :=
  let '(o, w') := func wn.1 in (o, (w', S wn.2)).

(** A call of the console or of the clock beside that count, which it
    leaves as it is. *)
Definition nao_contada {World Exc : Type}
    (op : World → option Exc * World) (wn : World * nat)
    : option Exc * (World * nat) :=
  let '(x, w') := op wn.1 in (x, (w', wn.2)).

(** *** [sanitizar_nome] *)

(** [[^\w\s-]] *)
Definition pat_inseguro : atom :=
  ANotIn [InCat CatWord; InCat CatSpace; InChr 45].

Definition sanitizar_nome `{Runtime} (nome : str) : str :=
  take 50 (replace1 32 (u "_") (strip (re_sub1 pat_inseguro [] nome))).

(** *** [extrair_metricas] *)

(** [SCORE_DESINFORMACAO:\s*(\d+)] *)
Definition pat_score : regex :=
  RCat [RLit (u "SCORE_DESINFORMACAO:"); RStar (ACat CatSpace);
        RGroup (RPlus (ACat CatDigit))].

(** [CONFIANCA_ANALISE:\s*(\w+)] *)
Definition pat_confianca : regex :=
  RCat [RLit (u "CONFIANCA_ANALISE:"); RStar (ACat CatSpace);
        RGroup (RPlus (ACat CatWord))].

(** [VEREDITO_CODIGO:\s*(\w+)] *)
Definition pat_veredito : regex :=
  RCat [RLit (u "VEREDITO_CODIGO:"); RStar (ACat CatSpace);
        RGroup (RPlus (ACat CatWord))].

(** [MÉDIA CONSPIR\s*\|\s*\*?\*?(\d+(?:\.\d+)?)/10] *)
Definition pat_conspir : regex :=
  RCat [RLit (u "MÉDIA CONSPIR"); RStar (ACat CatSpace); RLit (u "|");
        RStar (ACat CatSpace); ROpt (RLit (u "*")); ROpt (RLit (u "*"));
        RGroup (RSeq (RPlus (ACat CatDigit))
                     (ROpt (RSeq (RLit (u ".")) (RPlus (ACat CatDigit)))));
        RLit (u "/10")].

Definition NA : value := VStr (u "N/A").

Definition extrair_metricas `{Runtime} (laudo : str) : gmap string value :=
  let metricas : gmap string value :=
    {[ "score" := NA; "confianca" := NA; "veredito" := NA;
       "conspir_media" := NA ]} in
  let metricas :=
    match re_search pat_score laudo with
    | Some score_match => <["score" := group 1 score_match]> metricas
    | None => metricas
    end in
  let metricas :=
    match re_search pat_confianca laudo with
    | Some confianca_match =>
        <["confianca" := group 1 confianca_match]> metricas
    | None => metricas
    end in
  let metricas :=
    match re_search pat_veredito laudo with
    | Some veredito_match =>
        <["veredito" := group 1 veredito_match]> metricas
    | None => metricas
    end in
  let metricas :=
    match re_search pat_conspir laudo with
    | Some conspir_match =>
        <["conspir_media" :=
            VStr (format_value (group 1 conspir_match) ++ u "/10")]> metricas
    | None => metricas
    end in
  metricas.

(** *** [classificar_score] *)

(** C's [isspace] in the C locale. *)
Definition c_isspace (c : N) : bool := between 9 13 c || (c =? 32).

(** White space for [int()]: an ASCII character is white space when C's
    [isspace] says so (U+001C to U+001F are not), any other one when
    [str.isspace] does. *)
Definition int_isspace (c : N) : bool :=
  if c <? 128 then c_isspace c else py_isspace c.

Fixpoint int_lstrip (s : str) : str :=
  match s with
  | c :: s' => if int_isspace c then int_lstrip s' else s
  | [] => []
  end.

(** The digits of a literal, single underscores allowed between two of
    them: the value read so far, the number of digits, and the text left;
    [None] on a doubled or trailing underscore. *)
Fixpoint int_digits `{Runtime} (s : str) (after_underscore : bool)
    (acc : Z) (digits : nat) : option (Z * nat * str) :=
  match s with
  | c :: s' =>
      if c =? 95 then
        if after_underscore then None
        else int_digits s' true acc digits
      else
        match py_todecimal c with
        | Some d => int_digits s' false (acc * 10 + Z.of_N d)%Z (S digits)
        | None => if after_underscore then None else Some (acc, digits, s)
        end
  | [] => if after_underscore then None else Some (acc, digits, [])
  end.

(** Below this many digits [int()] does not look at the limit. *)
Definition int_digits_threshold : nat := 640.

(** The literal after its sign: the digits, which may not start with an
    underscore and must be at least one, then white space up to the end.
    [None] is [ValueError]. *)
Definition int_after_sign `{Runtime} (negative : bool) (s : str) : option Z :=
  if bool_decide (head s = Some 95) then None
  else
    match int_digits s false 0%Z O with
    | None => None
    | Some (n, digits, rest) =>
        if (digits =? 0)%nat then None
        else if (int_digits_threshold <? digits)%nat
                && (0 <? int_max_str_digits)%nat
                && (int_max_str_digits <? digits)%nat then None
        else
          match int_lstrip rest with
          | [] => Some (if negative then (- n)%Z else n)
          | _ :: _ => None
          end
    end.

(** [int(s)] for a string: white space is skipped, then a sign is read,
    then the literal. *)
Definition py_int `{Runtime} (s : str) : option Z :=
  match int_lstrip s with
  | c :: s' =>
      if c =? 43 then int_after_sign false s'
      else if c =? 45 then int_after_sign true s'
      else int_after_sign false (c :: s')
  | [] => int_after_sign false []
  end.

Definition classificar_score `{Runtime} (score_str : str) : str * str :=
  match py_int score_str with
  | Some score =>
      if (score <=? 20)%Z then (u "green", u "ALTAMENTE CONFIÁVEL")
      else if (score <=? 40)%Z then (u "yellow", u "MAIORITARIAMENTE VERDADEIRO")
      else if (score <=? 60)%Z then (u "orange3", u "SUSPEITO / VERIFICAR")
      else if (score <=? 80)%Z then (u "red", u "PROVÁVEL DESINFORMAÇÃO")
      else (u "bold red", u "DESINFORMAÇÃO CONFIRMADA")
  | None => (u "white", u "INDETERMINADO")
  end.

(** The five bands in the order of their thresholds, numbered from 1. *)
Definition banda (k : nat) : str * str :=
  match k with
  | 1%nat => (u "green", u "ALTAMENTE CONFIÁVEL")
  | 2%nat => (u "yellow", u "MAIORITARIAMENTE VERDADEIRO")
  | 3%nat => (u "orange3", u "SUSPEITO / VERIFICAR")
  | 4%nat => (u "red", u "PROVÁVEL DESINFORMAÇÃO")
  | _ => (u "bold red", u "DESINFORMAÇÃO CONFIRMADA")
  end.

(** The band of an integer score. *)
Definition banda_de (score : Z) : nat :=
  if (score <=? 20)%Z then 1
  else if (score <=? 40)%Z then 2
  else if (score <=? 60)%Z then 3
  else if (score <=? 80)%Z then 4
  else 5.

Definition indeterminado : str * str := (u "white", u "INDETERMINADO").

(** *** [formatar_evidencias_para_prompt] *)

(** [r.get(key, default)]. *)
Definition get (r : item) (key : string) (default_ : str) : str :=
  default default_ (r !! key).

Definition formatar_evidencias_para_prompt (evidencias : Evidencias) : str :=
  let resultados := default [] (results evidencias) in
  match resultados with
  | [] => u "Nenhuma evidência encontrada."
  | _ :: _ =>
      let linhas :=
        fold_left
          (λ (linhas : list str) '(i, r),
             linhas ++
             [cat [u "--- FONTE ["; str_of_int i; u "] ---"];
              cat [u "URL: "; get r "url" (u "N/D")];
              cat [u "Título: "; get r "title" (u "N/D")];
              cat [u "Data: "; get r "published_date" (u "N/D")];
              cat [u "Conteúdo relevante: ";
                   take 800 (get r "content" (u "N/D"))];
              []])
          (enumerate 1 resultados) [] in
      join nl linhas
  end.

(** *** [determinar_badge_class] *)

Definition mapping : gmap str str :=
  {[ u "VERDADEIRO" := u "badge-verdadeiro";
     u "FALSO" := u "badge-falso";
     u "PARCIAL" := u "badge-parcial";
     u "CONTEXTO" := u "badge-contexto";
     u "INCONCLUSIVO" := u "badge-inconclusivo";
     u "DESATUALIZADO" := u "badge-inconclusivo" ]}.

Definition determinar_badge_class `{Runtime} (veredito : str) : str :=
  default (u "badge-inconclusivo") (mapping !! upper veredito).

(** *** [gerar_tabela_fontes_html] *)

Definition sp (n : nat) : str := replicate n 32.

(** The row the loop adds for the item [r] at index [i]. *)
Definition linha_fonte (i : Z) (r : item) : str :=
  let url := get r "url" (u "N/D") in
  let titulo := get r "title" (u "N/D") in
  let data := get r "published_date" (u "N/D") in
  let conteudo :=
    match r !! "content" with
    | Some (_ :: _) => take 250 (get r "content" []) ++ u "..."
    | _ => u "N/D"
    end in
  cat [nl; sp 8; u "<tr>"; nl;
       sp 12; u "<td><strong>["; str_of_int i; u "]</strong></td>"; nl;
       sp 12; u "<td>"; titulo; u "</td>"; nl;
       sp 12; u "<td class="; dq; u "url-fonte"; dq; u "><a href="; dq; url;
              dq; u ">"; url; u "</a></td>"; nl;
       sp 12; u "<td>"; data; u "</td>"; nl;
       sp 12; u "<td>"; conteudo; u "</td>"; nl;
       sp 8; u "</tr>"].

Definition tabela_abre : str :=
  cat [nl; sp 4; u "<table>"; nl;
       sp 8; u "<thead>"; nl;
       sp 12; u "<tr>"; nl;
       sp 16; u "<th>#</th>"; nl;
       sp 16; u "<th>Título</th>"; nl;
       sp 16; u "<th>URL</th>"; nl;
       sp 16; u "<th>Data</th>"; nl;
       sp 16; u "<th>Trecho</th>"; nl;
       sp 12; u "</tr>"; nl;
       sp 8; u "</thead>"; nl;
       sp 8; u "<tbody>"].

Definition tabela_fecha : str :=
  cat [u "</tbody>"; nl; sp 4; u "</table>"].

Definition gerar_tabela_fontes_html (evidencias : Evidencias) : str :=
  let resultados := default [] (results evidencias) in
  match resultados with
  | [] => u "<p><em>Nenhuma fonte encontrada na busca.</em></p>"
  | _ :: _ =>
      let linhas :=
        fold_left (λ (linhas : str) '(i, r), linhas ++ linha_fonte i r)
          (enumerate 1 resultados) [] in
      cat [tabela_abre; linhas; tabela_fecha]
  end.

(* ===================================================================== *)
(** ** A concrete runtime and concrete operations, for examples          *)
(* ===================================================================== *)

(** The tables cut down to the Latin-1 Supplement (U+0080 to U+00FF):
    no decimal digit there; the letters, the ordinal indicators, the
    superscript digits, the micro sign and the fractions are alphanumeric;
    sharp s becomes SS, y with diaeresis U+0178, the micro sign U+039C.
    Code points above U+00FF are left in no class and unchanged. The digit
    limit is CPython's default. *)
Definition latin1 : Runtime := {|
  hi_isalnum c :=
    (c =? 170) || (c =? 178) || (c =? 179) || (c =? 181) || (c =? 185)
    || (c =? 186) || between 188 190 c || between 192 214 c
    || between 216 246 c || between 248 255 c;
  hi_todecimal _ := None;
  hi_toupper c :=
    if c =? 223 then [83; 83]
    else if c =? 255 then [376]
    else if c =? 181 then [924]
    else if (between 224 246 c || between 248 254 c) then [c - 32]
    else [c];
  int_max_str_digits := 4300
|}.

(** An operation that fails on its first [n] calls and then returns 42;
    the world is the number of calls made so far, and the error of a call
    is that number. *)
Definition falha_n_vezes (n : nat) (chamadas : nat) : outcome nat nat * nat :=
  (if (chamadas <? n)%nat then Raised chamadas else Returned 42%nat,
   S chamadas).

(** Every error of the examples is an [Exception]. *)
Definition sempre_Exception (e : nat) : bool := true.

(** A console that prints every notice and a clock whose waits all end;
    neither touches the count of calls. *)
Definition console_aceita {Delay : Type} (tentativa : Z) (e : nat)
    (espera : Delay) (chamadas : nat) : option nat * nat :=
  (None, chamadas).

Definition espera_termina {Delay : Type} (espera : Delay) (chamadas : nat)
    : option nat * nat :=
  (None, chamadas).

(** A console that refuses the notice of the error 0, raising its own
    error 500, and prints the others. *)
Definition console_recusa_0 {Delay : Type} (tentativa : Z) (e : nat)
    (espera : Delay) (chamadas : nat) : option nat * nat :=
  (if (e =? 0)%nat then Some 500%nat else None, chamadas).

(** Three search hits, the second without a date, the third without
    content. *)
Definition tres_fontes : list item :=
  [ {[ "url" := u "https://a.example/1"; "title" := u "Primeira";
       "published_date" := u "2024-01-02"; "content" := u "Texto um" ]};
    {[ "url" := u "https://b.example/2"; "title" := u "Segunda";
       "content" := u "Texto dois" ]};
    {[ "url" := u "https://c.example/3"; "title" := u "Terceira";
       "published_date" := u "ontem" ]} ].

(** A search hit whose title holds markup of its own. *)
Definition fonte_com_marca : item :=
  {[ "url" := u "https://a.example/1";
     "title" := u "um</td></tr><tr><td>dois" ]}.

(** A name of 51 characters whose 50th is a tab. *)
Definition nome_com_tab : str := replicate 49 97 ++ [9; 98].

(** The row of the system prompt's table for the composite sub-score,
    [| **MÉDIA CONSPIR** | **X/10** | |], with [valor] in the place of X. *)
Definition linha_do_modelo (valor : str) : str :=
  u "| **MÉDIA CONSPIR** | **" ++ valor ++ u "/10** | |".

(* ===================================================================== *)
(** ** The program, continued: configuration, export, pipeline           *)
(* ===================================================================== *)

(** *** [Config] and [carregar_config] *)

Record Config := {
  groq_key : str;
  tavily_key : str;
  max_resultados : Z;
  modelo_ia : str;
  temperatura : Q;
  max_tentativas_retry : Z;
  pasta_relatorios : str
}.

(** [os.getenv(name, "")], the environment being a [dict]. *)
Definition getenv (environ : gmap string str) (name : string) : str :=
  default [] (environ !! name).

(** [inl msg] is [raise EnvironmentError(msg)]. *)
Definition carregar_config (environ : gmap string str) : str + Config :=
  let groq_key := strip (getenv environ "GROQ_API_KEY") in
  let tavily_key := strip (getenv environ "TAVILY_API_KEY") in
  if bool_decide (groq_key = []) || bool_decide (tavily_key = []) then
    inl (u "APIs GROQ_API_KEY ou TAVILY_API_KEY não configuradas.")
  else
    inr {| groq_key := groq_key; tavily_key := tavily_key;
           max_resultados := 12;
           modelo_ia := u "llama-3.3-70b-versatile";
           temperatura := 0%Q;
           max_tentativas_retry := 3;
           pasta_relatorios := u "laudos_periciais" |}.

(** *** [exportar_laudo]: the paths *)

(** [os.path.join(a, b)] on a POSIX system. *)
Definition os_path_join (a b : str) : str :=
  if bool_decide (head b = Some 47) then b
  else if bool_decide (a = []) || bool_decide (last a = Some 47) then a ++ b
  else a ++ u "/" ++ b.

(** The folder of the case and the three files, [timestamp] being
    [datetime.now().strftime("%Y%m%d_%H%M%S")]. *)
Definition pasta_do_caso `{Runtime} (config : Config) (fato : str) : str :=
  os_path_join (pasta_relatorios config) (sanitizar_nome fato).

Definition caminhos_do_laudo `{Runtime} (config : Config) (fato : str)
    (timestamp : str) : str * str * str :=
  let pasta := pasta_do_caso config fato in
  let nome_base := u "laudo_pericial_" ++ timestamp in
  (os_path_join pasta (nome_base ++ u ".md"),
   os_path_join pasta (nome_base ++ u ".html"),
   os_path_join pasta (nome_base ++ u ".pdf")).

(** *** [exportar_laudo]: the Markdown text *)

(** [md_completo], the text written to the .md file. [metricas['score']]
    and the two other subscripts raise [KeyError] on a missing key, which
    is [None] here. [tecnicas] is the constant TECNICAS_CIENTIFICAS and
    [data_geracao] the formatted time of the export. *)
Definition md_completo (tecnicas fato data_geracao : str)
    (metricas : gmap string value) (resumo_executivo laudo_md : str)
    : option str :=
  score ← metricas !! "score";
  veredito ← metricas !! "veredito";
  confianca ← metricas !! "confianca";
  Some (cat [u "# LAUDO PERICIAL — FactCheck AI Pro v4.0"; nl;
             u "**Objeto:** "; fato; nl;
             u "**Gerado em:** "; data_geracao; nl;
             u "**Score de Desinformação:** "; format_value score;
             u "/100"; nl;
             u "**Veredito:** "; format_value veredito; nl;
             u "**Confiança da Análise:** "; format_value confianca; nl;
             nl; u "---"; nl; nl;
             u "## RESUMO EXECUTIVO"; nl; resumo_executivo; nl;
             nl; u "---"; nl; nl;
             u "## TÉCNICAS CIENTÍFICAS APLICADAS"; nl; tecnicas; nl;
             nl; u "---"; nl; nl;
             laudo_md; nl]).

(** *** [exportar_laudo]: the badge and the colour of the score *)



(** *** [executar_investigacao] *)

(** The descriptions of the four tasks of the progress display, while
    under way and when done. *)
Definition tarefa_busca : str :=
  u "[cyan]🔎 Coletando evidências na web (busca avançada)...".
Definition feita_busca (n_fontes : Z) : str :=
  cat [u "[cyan]✔ "; str_of_int n_fontes; u " fontes coletadas.[/cyan]"].
Definition tarefa_laudo : str :=
  u "[magenta]🧠 Gerando laudo técnico com análise científica (IA)...".
Definition feita_laudo : str :=
  u "[magenta]✔ Laudo técnico gerado.[/magenta]".
Definition tarefa_resumo : str :=
  u "[yellow]📝 Gerando resumo executivo em linguagem acessível...".
Definition feita_resumo : str :=
  u "[yellow]✔ Resumo executivo gerado.[/yellow]".
Definition tarefa_exportacao : str :=
  u "[green]📄 Exportando laudo pericial completo (PDF/HTML/MD)...".
Definition feita_exportacao : str :=
  u "[green]✔ Arquivos gerados com sucesso.[/green]".

Section Pipeline.
Context {World Exc : Type}.

(** What the run calls and the repository does not define, each call
    returning or raising in the world it finds:
    - the console and the clock of [com_retry];
    - [console.print(Panel(...))] of the opening panel, whose markup holds
      the claim as typed;
    - the progress display: [Progress(...)] with its [__enter__], its
      [__exit__] (which returns [None], so that an exception of the block
      goes on after it), [add_task], which returns the task's number, and
      [update];
    - the bodies of [buscar_web], [gerar_laudo_ia] and
      [gerar_resumo_executivo], with the configuration and the client
      fixed;
    - [exportar_laudo] with its files, and [exibir_painel_resultados] with
      its panels. *)
Variable is_Exception : Exc → bool.
Variable console_print : Z → Exc → Q → World → option Exc * World.
Variable time_sleep : Q → World → option Exc * World.
Variable painel_inicial : str → World → option Exc * World.
Variable progress_enter : World → option Exc * World.
Variable progress_exit : World → option Exc * World.
Variable progress_add_task : str → World → outcome Exc nat * World.
Variable progress_update : nat → str → World → option Exc * World.
Variable buscar_web_body : str → World → outcome Exc Evidencias * World.
Variable gerar_laudo_ia_body :
  str → Evidencias → World → outcome Exc str * World.
Variable gerar_resumo_executivo_body :
  str → World → outcome Exc str * World.
Variable exportar_laudo :
  str → str → str → Evidencias → gmap string value → World →
  outcome Exc (str * str * str) * World.
Variable exibir_painel_resultados :
  str → gmap string value → str → str → str → Z → World →
  option Exc * World.

(** A piece of the run: from a world and the retry notices printed so
    far to how the piece ends. [ReturnsNone] stands for a decorated call
    that returned [None], after which the code is not followed. *)
Definition run (A : Type) : Type :=
  World → list (event Exc Q) →
  completion Exc A * World * list (event Exc Q).

Definition seguido {A B : Type} (m : run A) (k : A → run B) : run B :=
  λ w out,
    match m w out with
    | (Returns a, w', out') => k a w' out'
    | (ReturnsNone, w', out') => (ReturnsNone, w', out')
    | (Raises e, w', out') => (Raises e, w', out')
    end.

Definition retorna {A : Type} (a : A) : run A :=
  λ w out, (Returns a, w, out).

(** A call made for its effect, and a call made for its value. *)
Definition faz (op : World → option Exc * World) : run unit :=
  λ w out,
    match op w with
    | (None, w') => (Returns (), w', out)
    | (Some x, w') => (Raises x, w', out)
    end.

Definition chama {A : Type} (op : World → outcome Exc A * World) : run A :=
  λ w out,
    match op w with
    | (Returned a, w') => (Returns a, w', out)
    | (Raised e, w') => (Raises e, w', out)
    end.

(** [@com_retry()]: three attempts, two seconds. *)
Definition decorada {A : Type} (body : World → outcome Exc A * World)
    : run A :=
  λ w out,
    let '(c, w', out') :=
      com_retry is_Exception body console_print time_sleep 3 2%Q w in
    (c, w', out ++ out').

Definition buscar_web (fato : str) : run Evidencias :=
  decorada (buscar_web_body fato).

Definition gerar_laudo_ia (fato : str) (evidencias : Evidencias) : run str :=
  decorada (gerar_laudo_ia_body fato evidencias).

Definition gerar_resumo_executivo (laudo : str) : run str :=
  decorada (gerar_resumo_executivo_body laudo).

(** [with Progress(...) as progress: bloco]: the display is closed
    however the block ends, and what the closing raises replaces what the
    block raised. *)
Definition com_progress {A : Type} (bloco : run A) : run A :=
  seguido (faz progress_enter) (λ _ w out,
    let '(c, w', out') := bloco w out in
    match progress_exit w' with
    | (None, w'') => (c, w'', out')
    | (Some x, w'') => (Raises x, w'', out')
    end).

Notation "x <~ m ;; k" := (seguido m (λ x, k))
  (at level 100, m at next level, right associativity, only parsing).

(** The four stages in a row under the progress display, between the
    opening panel and the panel of results. *)
Definition executar_investigacao `{Runtime} (fato : str)
    : run (gmap string value) :=
  _ <~ faz (painel_inicial fato);;
  r <~ com_progress (
    t1 <~ chama (progress_add_task tarefa_busca);;
    evidencias <~ buscar_web fato;;
    let n_fontes := Z.of_nat (length (default [] (results evidencias))) in
    _ <~ faz (progress_update t1 (feita_busca n_fontes));;
    t2 <~ chama (progress_add_task tarefa_laudo);;
    laudo <~ gerar_laudo_ia fato evidencias;;
    _ <~ faz (progress_update t2 feita_laudo);;
    t3 <~ chama (progress_add_task tarefa_resumo);;
    resumo <~ gerar_resumo_executivo laudo;;
    _ <~ faz (progress_update t3 feita_resumo);;
    t4 <~ chama (progress_add_task tarefa_exportacao);;
    let metricas := extrair_metricas laudo in
    caminhos <~ chama
            (exportar_laudo fato laudo resumo evidencias metricas);;
    _ <~ faz (progress_update t4 feita_exportacao);;
    retorna (metricas, caminhos, n_fontes));;
  let '(metricas, (md_file, html_file, pdf_file), n_fontes) := r in
  _ <~ faz (exibir_painel_resultados fato metricas md_file html_file
              pdf_file n_fontes);;
  retorna metricas.

End Pipeline.

(** A reports folder and a search that always fails with its call
    number, for examples. *)
Definition config_exemplo : Config :=
  {| groq_key := u "gsk"; tavily_key := u "tvly"; max_resultados := 12;
     modelo_ia := u "llama-3.3-70b-versatile"; temperatura := 0%Q;
     max_tentativas_retry := 3; pasta_relatorios := u "laudos_periciais" |}.

Definition busca_que_falha (fato : str) (chamadas : nat)
    : outcome nat Evidencias * nat :=
  (Raised chamadas, S chamadas).

(** An operation whose first error is an [Exception] and whose second is
    not (error 99, an interrupt). *)
Definition interrompida (chamadas : nat) : outcome nat nat * nat :=
  (Raised (if (chamadas =? 0)%nat then 7 else 99)%nat, S chamadas).

Definition exceto_99 (e : nat) : bool := negb (e =? 99)%nat.

(** Display and console calls that return, a search that finds nothing,
    a generation that returns a short report and a summary that always
    fails, for examples; the world is the number of calls of the three
    services, and the error of a call is that number. *)
Definition mostra (chamadas : nat) : option nat * nat := (None, chamadas).

Definition nova_tarefa (descricao : str) (chamadas : nat)
    : outcome nat nat * nat :=
  (Returned 0%nat, chamadas).

Definition busca_vazia (fato : str) (chamadas : nat)
    : outcome nat Evidencias * nat :=
  (Returned {| results := Some []; answer := None |}, S chamadas).

Definition laudo_curto (fato : str) (evidencias : Evidencias)
    (chamadas : nat) : outcome nat str * nat :=
  (Returned (u "SCORE_DESINFORMACAO: 95"), S chamadas).

Definition resumo_que_falha (laudo : str) (chamadas : nat)
    : outcome nat str * nat :=
  (Raised chamadas, S chamadas).

Definition exporta (fato laudo resumo : str) (evidencias : Evidencias)
    (metricas : gmap string value) (chamadas : nat)
    : outcome nat (str * str * str) * nat :=
  (Returned (u "a.md", u "a.html", u "a.pdf"), chamadas).

(* ===================================================================== *)
(** ** Vocabulary of the properties                                      *)
(* ===================================================================== *)

(** The six lines [formatar_evidencias_para_prompt] writes for the item
    [r] at index [i]. *)
Definition bloco_fonte (i : Z) (r : item) : list str :=
  [cat [u "--- FONTE ["; str_of_int i; u "] ---"];
   cat [u "URL: "; get r "url" (u "N/D")];
   cat [u "Título: "; get r "title" (u "N/D")];
   cat [u "Data: "; get r "published_date" (u "N/D")];
   cat [u "Conteúdo relevante: "; take 800 (get r "content" (u "N/D"))];
   []].

(** *** Reading a text back *)

(** [s.startswith(p)]. *)
Fixpoint startswith (p s : str) : bool :=
  match p, s with
  | [], _ => true
  | a :: p', b :: s' => (a =? b) && startswith p' s'
  | _ :: _, [] => false
  end.

(** [s.split(sep)] for a separator of one character or more: [cur] is the
    piece under way and [skip] the number of characters of the separator
    just met that are still to pass. *)
Fixpoint split_aux (sep s cur : str) (skip : nat) : list str :=
  match s with
  | [] => [cur]
  | c :: s' =>
      match skip with
      | S k => split_aux sep s' cur k
      | O =>
          if startswith sep s then cur :: split_aux sep s' [] (length sep - 1)
          else split_aux sep s' (cur ++ [c]) 0
      end
  end.

Definition str_split (sep s : str) : list str := split_aux sep s [] 0.

(** The rows of an HTML text: what stands between each [<tr>] and the
    [</tr>] that follows it. *)
Definition linhas_tr (html : str) : list str :=
  (λ p, hd [] (str_split (u "</tr>") p)) <$> tail (str_split (u "<tr>") html).

(** [p] and [s] agree as far as both go. *)
Fixpoint compat (p s : str) : bool :=
  match p, s with
  | a :: p', b :: s' => (a =? b) && compat p' s'
  | _, _ => true
  end.

(** No occurrence of [sep] starts in [a], whatever follows [a]. *)
Fixpoint livre (sep a : str) : bool :=
  match a with
  | [] => true
  | _ :: a' => negb (compat sep a) && livre sep a'
  end.

(** What the 5th cell of a row shows of the content. *)
Definition trecho (r : item) : str :=
  match r !! "content" with
  | Some (_ :: _) => take 250 (get r "content" []) ++ u "..."
  | _ => u "N/D"
  end.

(** The text of a row of the body between its [<tr>] and its [</tr>]. *)
Definition celulas (i : Z) (r : item) : str :=
  let url := get r "url" (u "N/D") in
  cat [nl; sp 12; u "<td><strong>["; str_of_int i; u "]</strong></td>"; nl;
       sp 12; u "<td>"; get r "title" (u "N/D"); u "</td>"; nl;
       sp 12; u "<td class="; dq; u "url-fonte"; dq; u "><a href="; dq; url;
              dq; u ">"; url; u "</a></td>"; nl;
       sp 12; u "<td>"; get r "published_date" (u "N/D"); u "</td>"; nl;
       sp 12; u "<td>"; trecho r; u "</td>"; nl;
       sp 8].

(** The text of the row of the head. *)
Definition cabecalho : str :=
  cat [nl; sp 16; u "<th>#</th>"; nl;
       sp 16; u "<th>Título</th>"; nl;
       sp 16; u "<th>URL</th>"; nl;
       sp 16; u "<th>Data</th>"; nl;
       sp 16; u "<th>Trecho</th>"; nl;
       sp 12].

(** None of the four texts a row shows of the item holds [<]. *)
Definition sem_marca (r : item) : Prop :=
  Forall (λ v : str, 60 ∉ v)
    [get r "url" (u "N/D"); get r "title" (u "N/D");
     get r "published_date" (u "N/D"); trecho r].

(** The pieces of the rows between one [<tr>] and the next. *)
Fixpoint pecas (cur : str) (start : Z) (rs : list item) : list str :=
  match rs with
  | [] => [cur ++ tabela_fecha]
  | r :: rs' =>
      (cur ++ nl ++ sp 8) :: pecas (celulas start r ++ u "</tr>") (start + 1) rs'
  end.

(** None of the four texts a block shows of the item holds a line
    feed. *)
Definition sem_quebra (r : item) : Prop :=
  Forall (λ v : str, 10 ∉ v)
    [get r "url" (u "N/D"); get r "title" (u "N/D");
     get r "published_date" (u "N/D");
     take 800 (get r "content" (u "N/D"))].

(** A piece of a run ends in a [return] or in a [raise], whatever the
    world, after [k] retry notices of its own at most. *)
Definition limitada {World Exc A : Type} (k : nat) (m : @run World Exc A)
    : Prop :=
  ∀ w out, ∃ c w' out',
    m w out = (c, w', out ++ out')
    ∧ c ≠ ReturnsNone
    ∧ (notice_count out' ≤ k)%nat.


(** The number a string of ASCII digits denotes. *)
Definition valor_decimal (ds : str) : Z :=
  fold_left (λ acc c, (acc * 10 + Z.of_N (c - 48))%Z) ds 0%Z.

(** The pattern cannot match without its group taking part. *)
Fixpoint sets_group (r : regex) : bool :=
  match r with
  | RSeq r1 r2 => sets_group r1 || sets_group r2
  | RGroup _ => true
  | _ => false
  end.

(** What a pattern can match, whatever the order in which the matcher
    tries things: [rsem r w g g'] when [r] matches exactly the text [w]
    and group 1, [g] before, is [g'] after. *)
Fixpoint rsem `{Runtime} (r : regex) (w : str) (g g' : option str) : Prop :=
  match r with
  | REps => w = [] ∧ g' = g
  | RAtom a => ∃ c, w = [c] ∧ atom_matches a c = true ∧ g' = g
  | RSeq r1 r2 =>
      ∃ w1 w2 g1, w = w1 ++ w2 ∧ rsem r1 w1 g g1 ∧ rsem r2 w2 g1 g'
  | ROpt r1 => (w = [] ∧ g' = g) ∨ rsem r1 w g g'
  | RStar a => Forall (λ c, atom_matches a c = true) w ∧ g' = g
  | RPlus a => w ≠ [] ∧ Forall (λ c, atom_matches a c = true) w ∧ g' = g
  | RGroup r1 => ∃ g1, rsem r1 w g g1 ∧ g' = Some w
  end.

(** The shape of the three label patterns: the label, [\s*], and a group
    of one or more characters of a category. *)
Definition pat_rotulo (rotulo : str) (k : category) : regex :=
  RCat [RLit rotulo; RStar (ACat CatSpace); RGroup (RPlus (ACat k))].

(** [s] does not start with a character of the category [k]. *)
Definition not_starting `{Runtime} (k : category) (s : str) : Prop :=
  match s with c :: _ => in_category k c = false | [] => True end.

(** [s] does not start with white space. *)
Definition starts_clean (s : str) : Prop :=
  match s with c :: _ => py_isspace c = false | [] => True end.

(** The characters [re.sub] leaves in place in [sanitizar_nome]. *)
Definition seguro `{Runtime} (c : N) : Prop :=
  atom_matches pat_inseguro c = false.

(* ===================================================================== *)
(** ** Properties of [com_retry]                                         *)
(* ===================================================================== *)

Section ComRetryProperties.
Context {World Exc Val Delay : Type}.
Variable is_Exception : Exc → bool.
Variable func : World → outcome Exc Val * World.
Variable console_print : Z → Exc → Delay → World → option Exc * World.
Variable time_sleep : Delay → World → option Exc * World.

Lemma range_seq (n : Z) : range n = Z.of_nat <$> seq 0 (Z.to_nat n).
Proof. reflexivity. Qed.

Lemma notice_count_notices (from : Z) (d : Delay) (es : list Exc) :
  notice_count (notices from d es) = length es.
Proof.
  unfold notice_count. revert from.
  induction es as [|e es IH]; intros from; simpl; [done|].
  by rewrite IH.
Qed.

(** Failures that are not the last attempt's are retried when their notice
    is printed and their wait ends: the loop goes on from the index after
    them. *)
Lemma wrapper_loop_fails (N : Z) (d : Delay) (es : list Exc) :
  ∀ (w w' : World) (a n : nat) (out : list (event Exc Delay)),
    fails func console_print time_sleep d (Z.of_nat a + 1) w es w' →
    Forall (λ e, is_Exception e = true) es →
    (length es ≤ n)%nat →
    (Z.of_nat (a + length es) < N)%Z →
    wrapper_loop is_Exception func console_print time_sleep N d
      (Z.of_nat <$> seq a n) w out
    = wrapper_loop is_Exception func console_print time_sleep N d
        (Z.of_nat <$> seq (a + length es) (n - length es)) w'
        (out ++ notices (Z.of_nat a + 1) d es).
Proof.
  induction es as [|e es IH]; intros w w' a n out Hf Hex Hn HN.
  - inversion Hf; subst. simpl.
    by rewrite Nat.add_0_r, Nat.sub_0_r, app_nil_r.
  - inversion Hf as [|from w0 e0 w1 w2 w3 es0 w4 Hcall Hprint Hsleep Hrest];
      subst.
    apply Forall_cons in Hex as [He Hex]. cbn [length] in Hn, HN.
    destruct n as [|n]; [lia|]. cbn [seq fmap list_fmap wrapper_loop].
    rewrite Hcall, He.
    destruct (Z.eqb_spec (Z.of_nat a) (N - 1)) as [Heq|_]; [lia|].
    rewrite Hprint, Hsleep.
    replace (Z.of_nat a + 1 + 1)%Z with (Z.of_nat (S a) + 1)%Z in Hrest
      by lia.
    rewrite (IH w3 w' (S a) n); [|done|done|lia|lia].
    rewrite <- app_assoc. cbn [length notices app].
    replace (S a + length es)%nat with (a + S (length es))%nat by lia.
    replace (S n - S (length es))%nat with (n - length es)%nat by lia.
    do 4 f_equal. f_equal. lia.
Qed.

Lemma com_retry_nonpositive (N : Z) (d : Delay) (w : World) :
  (N ≤ 0)%Z →
  com_retry is_Exception func console_print time_sleep N d w
  = (ReturnsNone, w, []).
Proof.
  intros HN. unfold com_retry, range.
  by replace (Z.to_nat N) with 0%nat by lia.
Qed.

(** C1 (amended). With [N >= 1] attempts: an operation that fails [k < N]
    times and then succeeds, each failure's notice being printed and each
    wait ending, gives the wrapper its value, with exactly [k] notices; an
    operation that fails [N] times in this way makes the wrapper raise the
    [N]-th failure itself, after [N - 1] notices, and return nothing. *)
Theorem com_retry_bounded_attempts (N : Z) (d : Delay) (w w' w'' : World)
    (es : list Exc) :
  (1 ≤ N)%Z →
  Forall (λ e, is_Exception e = true) es →
  fails func console_print time_sleep d 1 w es w' →
  (∀ v, (Z.of_nat (length es) < N)%Z → func w' = (Returned v, w'') →
     com_retry is_Exception func console_print time_sleep N d w
     = (Returns v, w'', notices 1 d es)
     ∧ notice_count (notices 1 d es) = length es)
  ∧ (∀ e, Z.of_nat (length es) = (N - 1)%Z → func w' = (Raised e, w'') →
     com_retry is_Exception func console_print time_sleep N d w
     = (Raises e, w'', notices 1 d es)
     ∧ notice_count (notices 1 d es) = Z.to_nat (N - 1)).
Proof.
  intros HN Hex Hf. split.
  - intros v Hlt Hcall. split; [|apply notice_count_notices].
    unfold com_retry. rewrite range_seq.
    rewrite (wrapper_loop_fails N d es w w' 0 (Z.to_nat N) []);
      [|done|done|lia|simpl; lia].
    simpl.
    destruct (Z.to_nat N - length es)%nat as [|m] eqn:Hm; [lia|].
    simpl. by rewrite Hcall.
  - intros e Hlen Hcall. split; [|rewrite notice_count_notices; lia].
    unfold com_retry. rewrite range_seq.
    rewrite (wrapper_loop_fails N d es w w' 0 (Z.to_nat N) []);
      [|done|done|lia|simpl; lia].
    simpl.
    destruct (Z.to_nat N - length es)%nat as [|m] eqn:Hm; [lia|].
    simpl. rewrite Hcall.
    destruct (is_Exception e); [|done].
    destruct (Z.eqb_spec (Z.of_nat (length es)) (N - 1)); [done|lia].
Qed.

(** C9. With [tentativas = 0] the wrapper returns [None]: the operation is
    never called (the world is as it was, whatever the operation), nothing
    is printed and nothing is raised. *)
Theorem com_retry_zero_attempts (d : Delay) (w : World) :
  com_retry is_Exception func console_print time_sleep 0 d w
  = (ReturnsNone, w, []).
Proof. by apply com_retry_nonpositive. Qed.

End ComRetryProperties.

(** C1, at [N = 3]: two failures and then a success. *)
Lemma com_retry_bounded_attempts_witness :
  com_retry sempre_Exception (falha_n_vezes 2) console_aceita espera_termina
    3 2%Z 0%nat
  = (Returns 42%nat, 3%nat, notices 1 2%Z [0%nat; 1%nat])
  ∧ notice_count (notices 1 2%Z [0%nat; 1%nat]) = 2%nat.
Proof.
  refine (proj1 (com_retry_bounded_attempts sempre_Exception (falha_n_vezes 2)
            console_aceita espera_termina
            3 2%Z 0%nat 2%nat 3%nat [0%nat; 1%nat] _ _ _) 42%nat _ _).
  - lia.
  - repeat constructor.
  - repeat (econstructor; try reflexivity).
  - simpl. lia.
  - reflexivity.
Defined.

(** C1 as stated fails: with [N = 3] attempts, an operation that fails
    exactly 3 times and would succeed on its 4th call is never called a
    4th time; the wrapper raises the 3rd failure after 2 notices, though
    every notice is printed and every wait ends. *)
Lemma com_retry_n_failures_raise :
  fails (falha_n_vezes 3) console_aceita espera_termina 2%Z 1 0%nat
    [0%nat; 1%nat; 2%nat] 3%nat
  ∧ falha_n_vezes 3 3%nat = (Returned 42%nat, 4%nat)
  ∧ com_retry sempre_Exception (falha_n_vezes 3) console_aceita
      espera_termina 3 2%Z 0%nat
    = (Raises 2%nat, 3%nat, notices 1 2%Z [0%nat; 1%nat]).
Proof.
  split; [repeat (econstructor; try reflexivity)|]. split; reflexivity.
Qed.

(* ===================================================================== *)
(** ** Properties of [sanitizar_nome]                                    *)
(* ===================================================================== *)

Lemma lstrip_split (s : str) :
  ∃ ws, s = ws ++ lstrip s ∧ Forall (λ c, py_isspace c = true) ws.
Proof.
  induction s as [|c s [ws [Hs Hws]]]; simpl.
  - by exists [].
  - destruct (py_isspace c) eqn:Hc.
    + exists (c :: ws). split; [simpl; congruence | by constructor].
    + by exists [].
Qed.

Lemma lstrip_starts_clean (s : str) : starts_clean (lstrip s).
Proof.
  induction s as [|c s IH]; simpl; [done|].
  by destruct (py_isspace c) eqn:Hc.
Qed.

Lemma lstrip_clean (s : str) : starts_clean s → lstrip s = s.
Proof. destruct s as [|c s]; simpl; [done|]. by intros ->. Qed.

Lemma rstrip_split (s : str) :
  ∃ ws, s = rstrip s ++ ws ∧ Forall (λ c, py_isspace c = true) ws.
Proof.
  unfold rstrip. destruct (lstrip_split (reverse s)) as [ws [Hs Hws]].
  exists (reverse ws). split; [|by apply Forall_reverse].
  rewrite <- reverse_app, <- Hs. by rewrite reverse_involutive.
Qed.

Lemma rstrip_last (s : str) (c : N) :
  last (rstrip s) = Some c → py_isspace c = false.
Proof.
  unfold rstrip. rewrite last_reverse.
  pose proof (lstrip_starts_clean (reverse s)) as Hc.
  destruct (lstrip (reverse s)) as [|c' t]; simpl; [done|].
  by intros [= <-].
Qed.

Lemma rstrip_clean (s : str) :
  (∀ c, last s = Some c → py_isspace c = false) → rstrip s = s.
Proof.
  intros Hl. unfold rstrip. rewrite lstrip_clean; [apply reverse_involutive|].
  rewrite <- head_reverse in Hl.
  destruct (reverse s) as [|c t]; simpl; [done|]. by apply Hl.
Qed.

Lemma rstrip_starts_clean (s : str) : starts_clean s → starts_clean (rstrip s).
Proof.
  destruct (rstrip_split s) as [ws [Hs _]].
  destruct (rstrip s) as [|c t]; [done|].
  rewrite Hs. by simpl.
Qed.

Lemma rstrip_length (s : str) : (length (rstrip s) ≤ length s)%nat.
Proof.
  destruct (rstrip_split s) as [ws [Hs _]].
  rewrite Hs at 2. rewrite length_app. lia.
Qed.

Lemma lstrip_length (s : str) : (length (lstrip s) ≤ length s)%nat.
Proof.
  destruct (lstrip_split s) as [ws [Hs _]].
  rewrite Hs at 2. rewrite length_app. lia.
Qed.

Lemma Forall_lstrip (P : N → Prop) (s : str) : Forall P s → Forall P (lstrip s).
Proof.
  destruct (lstrip_split s) as [ws [Hs _]]. rewrite Hs at 1.
  by intros [_ ?]%Forall_app.
Qed.

Lemma Forall_rstrip (P : N → Prop) (s : str) : Forall P s → Forall P (rstrip s).
Proof.
  destruct (rstrip_split s) as [ws [Hs _]]. rewrite Hs at 1.
  by intros [? _]%Forall_app.
Qed.

(** Replacing the space by an underscore is a map. *)
Lemma replace1_underscore (s : str) :
  replace1 32 (u "_") s = (λ c, if c =? 32 then 95 else c) <$> s.
Proof.
  unfold replace1. change (u "_") with [95].
  induction s as [|c s IH]; [done|].
  cbn [flat_map fmap list_fmap]. rewrite IH. by destruct (c =? 32).
Qed.

Lemma replace1_no_space (s : str) :
  Forall (λ c, c ≠ 32) s → replace1 32 (u "_") s = s.
Proof.
  rewrite replace1_underscore.
  induction 1 as [|c s Hc _ IH]; csimpl; [done|].
  rewrite IH. by destruct (N.eqb_spec c 32).
Qed.

Lemma replace1_result (s : str) :
  Forall (λ c, c ≠ 32) (replace1 32 (u "_") s).
Proof.
  rewrite replace1_underscore.
  induction s as [|c s IH]; csimpl; constructor; [|done].
  by destruct (N.eqb_spec c 32).
Qed.

Lemma replace1_starts_clean (s : str) :
  starts_clean s → starts_clean (replace1 32 (u "_") s).
Proof.
  rewrite replace1_underscore. destruct s as [|c s]; csimpl; [done|].
  by destruct (N.eqb_spec c 32) as [->|].
Qed.

Lemma replace1_last (s : str) :
  (∀ c, last s = Some c → py_isspace c = false) →
  ∀ c, last (replace1 32 (u "_") s) = Some c → py_isspace c = false.
Proof.
  rewrite replace1_underscore. intros Hl c. rewrite fmap_last.
  destruct (last s) as [c'|]; csimpl; [|done].
  intros [= <-]. specialize (Hl c' eq_refl).
  by destruct (N.eqb_spec c' 32) as [->|].
Qed.

Lemma take_starts_clean (n : nat) (s : str) :
  starts_clean s → starts_clean (take n s).
Proof. by destruct s, n. Qed.

Section SanitizarNome.
Context `{Runtime}.

Lemma re_sub1_seguro (s : str) : Forall seguro (re_sub1 pat_inseguro [] s).
Proof.
  unfold re_sub1. induction s as [|c s IH]; [done|].
  cbn [flat_map]. destruct (atom_matches pat_inseguro c) eqn:Hc; [done|].
  by constructor.
Qed.

Lemma re_sub1_id (s : str) : Forall seguro s → re_sub1 pat_inseguro [] s = s.
Proof.
  unfold re_sub1. induction 1 as [|c s Hc _ IH]; [done|].
  cbn [flat_map]. rewrite IH, Hc. done.
Qed.

Lemma re_sub1_length (s : str) :
  (length (re_sub1 pat_inseguro [] s) ≤ length s)%nat.
Proof.
  unfold re_sub1. induction s as [|c s IH]; [done|].
  cbn [flat_map]. rewrite length_app.
  destruct (atom_matches pat_inseguro c); cbn [length]; lia.
Qed.

Lemma seguro_underscore : seguro 95.
Proof. reflexivity. Qed.

Lemma replace1_seguro (s : str) :
  Forall seguro s → Forall seguro (replace1 32 (u "_") s).
Proof.
  rewrite replace1_underscore.
  induction 1 as [|c s Hc _ IH]; csimpl; constructor; [|done].
  destruct (c =? 32); [apply seguro_underscore | done].
Qed.

(** What every sanitised name looks like. *)
Lemma sanitizar_nome_shape (nome : str) :
  Forall seguro (sanitizar_nome nome)
  ∧ Forall (λ c, c ≠ 32) (sanitizar_nome nome)
  ∧ starts_clean (sanitizar_nome nome)
  ∧ (length (sanitizar_nome nome) ≤ 50)%nat.
Proof.
  unfold sanitizar_nome. repeat split.
  - apply Forall_take, replace1_seguro, Forall_rstrip, Forall_lstrip,
      re_sub1_seguro.
  - apply Forall_take, replace1_result.
  - apply take_starts_clean, replace1_starts_clean, rstrip_starts_clean,
      lstrip_starts_clean.
  - rewrite length_take. lia.
Qed.

(** A second pass only strips what the cut at 50 left at the end. *)
Lemma sanitizar_nome_twice (nome : str) :
  sanitizar_nome (sanitizar_nome nome) = rstrip (sanitizar_nome nome).
Proof.
  destruct (sanitizar_nome_shape nome) as (Hs & Hn & Hc & Hl).
  set (t := sanitizar_nome nome) in *.
  unfold sanitizar_nome at 1. fold t.
  rewrite re_sub1_id by done. unfold strip.
  rewrite lstrip_clean by done.
  rewrite replace1_no_space by by apply Forall_rstrip.
  apply take_ge. pose proof (rstrip_length t). lia.
Qed.

(** C4 (amended). A sanitised name has at most 50 characters. Sanitising
    it again only removes white space from its end: the name is unchanged
    when it does not end in white space, which is so whenever the input
    has at most 50 characters; and a third pass changes nothing. *)
Theorem sanitizar_nome_bounded_stable (nome : str) :
  (length (sanitizar_nome nome) ≤ 50)%nat
  ∧ sanitizar_nome (sanitizar_nome nome) = rstrip (sanitizar_nome nome)
  ∧ ((∀ c, last (sanitizar_nome nome) = Some c → py_isspace c = false) →
     sanitizar_nome (sanitizar_nome nome) = sanitizar_nome nome)
  ∧ ((length nome ≤ 50)%nat →
     sanitizar_nome (sanitizar_nome nome) = sanitizar_nome nome)
  ∧ sanitizar_nome (sanitizar_nome (sanitizar_nome nome))
    = sanitizar_nome (sanitizar_nome nome).
Proof.
  split; [apply sanitizar_nome_shape|].
  split; [apply sanitizar_nome_twice|].
  split; [|split].
  - intros Hl. rewrite sanitizar_nome_twice. by apply rstrip_clean.
  - intros Hlen. rewrite sanitizar_nome_twice. apply rstrip_clean.
    unfold sanitizar_nome. rewrite take_ge.
    + apply replace1_last, rstrip_last.
    + rewrite replace1_underscore, length_fmap.
      pose proof (rstrip_length (lstrip (re_sub1 pat_inseguro [] nome))).
      pose proof (lstrip_length (re_sub1 pat_inseguro [] nome)).
      pose proof (re_sub1_length nome). unfold strip. lia.
  - rewrite !sanitizar_nome_twice. apply rstrip_clean, rstrip_last.
Qed.

(** Whatever the tables of the runtime, the name of 49 letters, a tab and
    a letter loses its tab on the second pass only. *)
Lemma sanitizar_nome_tab :
  sanitizar_nome nome_com_tab = replicate 49 97 ++ [9]
  ∧ sanitizar_nome (sanitizar_nome nome_com_tab) = replicate 49 97.
Proof. split; by vm_compute. Qed.

End SanitizarNome.

(** C4, on a claim of 33 characters. *)
Lemma sanitizar_nome_bounded_stable_witness :
  @sanitizar_nome latin1
    (@sanitizar_nome latin1 (u "  Olá, mundo! A lua é de queijo?  "))
  = @sanitizar_nome latin1 (u "  Olá, mundo! A lua é de queijo?  ").
Proof.
  refine (proj1 (proj2 (proj2 (proj2
    (@sanitizar_nome_bounded_stable latin1
       (u "  Olá, mundo! A lua é de queijo?  "))))) _).
  vm_compute. lia.
Defined.

(** C4 as stated fails: the cut at 50 characters leaves a tab at the end
    of the name, and a second pass strips it. *)
Lemma sanitizar_nome_not_idempotent :
  @sanitizar_nome latin1 nome_com_tab = replicate 49 97 ++ [9]
  ∧ @sanitizar_nome latin1 (@sanitizar_nome latin1 nome_com_tab)
    = replicate 49 97
  ∧ @sanitizar_nome latin1 (@sanitizar_nome latin1 nome_com_tab)
    ≠ @sanitizar_nome latin1 nome_com_tab.
Proof. split; [|split]; [by vm_compute..|]. by vm_compute. Qed.

(* ===================================================================== *)
(** ** Properties of [extrair_metricas]                                  *)
(* ===================================================================== *)

Section MatcherProperties.
Context `{Runtime} {A : Type}.

(** A successful match is a success of what remained to be matched. *)
Lemma star_continues (a : atom) (g : option str)
    (k : str → option str → option A) (res : A) :
  ∀ s, star a s g k = Some res → ∃ s', k s' g = Some res.
Proof.
  induction s as [|c s IH]; cbn [star]; [by eauto|].
  destruct (atom_matches a c); [|by eauto].
  destruct (star a s g k) as [res'|] eqn:Hs; [|by eauto].
  intros [= ->]. by apply IH.
Qed.

Lemma rmatch_continues (r : regex) :
  ∀ (s : str) (g : option str) (k : str → option str → option A) (res : A),
    rmatch r s g k = Some res →
    ∃ s' g', k s' g' = Some res
             ∧ (is_Some g ∨ sets_group r = true → is_Some g').
Proof.
  induction r as [|a|r1 IH1 r2 IH2|r1 IH1|a|a|r1 IH1];
    intros s g k res; cbn [rmatch sets_group].
  - intros Hk. exists s, g. split; [done|]. by intros [?|?].
  - destruct s as [|c s]; [done|]. destruct (atom_matches a c); [|done].
    intros Hk. exists s, g. split; [done|]. by intros [?|?].
  - intros Hm. apply IH1 in Hm as (s1 & g1 & Hm & Hg1).
    apply IH2 in Hm as (s2 & g2 & Hk & Hg2).
    exists s2, g2. split; [done|].
    intros [Hg|[?|?]%orb_true_iff]; apply Hg2; auto.
  - destruct (rmatch r1 s g k) as [res'|] eqn:Hm.
    + intros [= ->]. apply IH1 in Hm as (s1 & g1 & Hk & Hg1).
      exists s1, g1. split; [done|]. intros [Hg|?]; [auto|done].
    + intros Hk. exists s, g. split; [done|]. by intros [?|?].
  - intros (s' & Hk)%star_continues. exists s', g.
    split; [done|]. by intros [?|?].
  - destruct s as [|c s]; [done|]. destruct (atom_matches a c); [|done].
    intros (s' & Hk)%star_continues. exists s', g.
    split; [done|]. by intros [?|?].
  - intros Hm. apply IH1 in Hm as (s1 & g1 & Hk & _).
    eexists _, _. split; [exact Hk|]. by eauto.
Qed.

End MatcherProperties.

Section ExtrairMetricas.
Context `{Runtime}.

Lemma re_match_group (r : regex) (s : str) (m : Match) :
  sets_group r = true → re_match r s = Some m → is_Some (group1 m).
Proof.
  intros Hr (s' & g' & [= <-] & Hg)%rmatch_continues. simpl. auto.
Qed.

Lemma re_search_group (r : regex) (m : Match) :
  sets_group r = true →
  ∀ s, re_search r s = Some m → ∃ t, group 1 m = VStr t.
Proof.
  intros Hr. induction s as [|c s IH]; cbn [re_search];
    destruct (re_match r _) as [m'|] eqn:Hm; try done;
    intros [= ->]; apply re_match_group in Hm as [t Ht]; try done;
    exists t; unfold group; by rewrite Ht.
Qed.

(** Each field is decided by its own pattern alone. *)
Lemma extrair_metricas_fields (laudo : str) :
  extrair_metricas laudo !! "score"
  = Some (from_option (group 1) NA (re_search pat_score laudo))
  ∧ extrair_metricas laudo !! "confianca"
    = Some (from_option (group 1) NA (re_search pat_confianca laudo))
  ∧ extrair_metricas laudo !! "veredito"
    = Some (from_option (group 1) NA (re_search pat_veredito laudo))
  ∧ extrair_metricas laudo !! "conspir_media"
    = Some (from_option
              (λ m, VStr (format_value (group 1 m) ++ u "/10")) NA
              (re_search pat_conspir laudo)).
Proof.
  unfold extrair_metricas.
  destruct (re_search pat_score laudo) as [m1|];
    destruct (re_search pat_confianca laudo) as [m2|];
    destruct (re_search pat_veredito laudo) as [m3|];
    destruct (re_search pat_conspir laudo) as [m4|];
    by simplify_map_eq.
Qed.

(** C2. For every text the result has exactly the four keys, each with
    a string; and each field is decided by its own pattern alone: the text
    of group 1 of the leftmost match (followed by /10 for the composite
    sub-score), and "N/A" when the pattern is found nowhere. *)
Theorem extrair_metricas_total (laudo : str) :
  dom (extrair_metricas laudo)
  = ({[ "score"; "confianca"; "veredito"; "conspir_media" ]} : gset string)
  ∧ (∀ k v, extrair_metricas laudo !! k = Some v → ∃ t, v = VStr t)
  ∧ extrair_metricas laudo !! "score"
    = Some (from_option (group 1) NA (re_search pat_score laudo))
  ∧ extrair_metricas laudo !! "confianca"
    = Some (from_option (group 1) NA (re_search pat_confianca laudo))
  ∧ extrair_metricas laudo !! "veredito"
    = Some (from_option (group 1) NA (re_search pat_veredito laudo))
  ∧ extrair_metricas laudo !! "conspir_media"
    = Some (from_option
              (λ m, VStr (format_value (group 1 m) ++ u "/10")) NA
              (re_search pat_conspir laudo)).
Proof.
  assert (dom (extrair_metricas laudo)
          = ({[ "score"; "confianca"; "veredito"; "conspir_media" ]}
             : gset string)) as Hdom.
  { unfold extrair_metricas.
    destruct (re_search pat_score laudo) as [m1|];
      destruct (re_search pat_confianca laudo) as [m2|];
      destruct (re_search pat_veredito laudo) as [m3|];
      destruct (re_search pat_conspir laudo) as [m4|];
      rewrite ?dom_insert_L, dom_singleton_L; set_solver. }
  split; [done|]. split; [|apply extrair_metricas_fields].
  intros k v Hk.
  destruct (extrair_metricas_fields laudo) as (H1 & H2 & H3 & H4).
  assert (k ∈ dom (extrair_metricas laudo)) as Hin by by apply elem_of_dom.
  rewrite Hdom in Hin.
  assert (∀ r, sets_group r = true →
            ∃ t, from_option (group 1) NA (re_search r laudo) = VStr t)
    as Hgroup.
  { intros r Hr. destruct (re_search r laudo) as [m|] eqn:Hm; simpl.
    - by apply (re_search_group r m Hr laudo).
    - by eexists. }
  apply elem_of_union in Hin as [[[->%elem_of_singleton | ->%elem_of_singleton]
    %elem_of_union | ->%elem_of_singleton]%elem_of_union | ->%elem_of_singleton].
  - rewrite H1 in Hk. injection Hk as <-. by apply Hgroup.
  - rewrite H2 in Hk. injection Hk as <-. by apply Hgroup.
  - rewrite H3 in Hk. injection Hk as <-. by apply Hgroup.
  - rewrite H4 in Hk. injection Hk as <-.
    destruct (re_search pat_conspir laudo); by eexists.
Qed.

(** Nothing to find: every field is "N/A". *)
Lemma extrair_metricas_empty :
  extrair_metricas []
  = {[ "score" := NA; "confianca" := NA; "veredito" := NA;
       "conspir_media" := NA ]}.
Proof. reflexivity. Qed.

(** The report of the specification's end-to-end scenario: three of the
    four tokens. *)
Lemma extrair_metricas_scenario :
  let m := extrair_metricas
             (cat [u "SCORE_DESINFORMACAO: 95"; nl;
                   u "CONFIANCA_ANALISE: ALTA"; nl;
                   u "VEREDITO_CODIGO: FALSO"]) in
  m !! "score" = Some (VStr (u "95"))
  ∧ m !! "confianca" = Some (VStr (u "ALTA"))
  ∧ m !! "veredito" = Some (VStr (u "FALSO"))
  ∧ m !! "conspir_media" = Some NA.
Proof. by vm_compute. Qed.

(** A verdict alone, with emphasis marks around it and garbage before. *)
Lemma extrair_metricas_partial :
  let m := extrair_metricas (u "%%% **VEREDITO_CODIGO: PARCIAL** ...") in
  m !! "score" = Some NA
  ∧ m !! "confianca" = Some NA
  ∧ m !! "veredito" = Some (VStr (u "PARCIAL"))
  ∧ m !! "conspir_media" = Some NA.
Proof. by vm_compute. Qed.

(** The pattern of the composite sub-score finds a row whose label is
    followed by the column bar. *)
Lemma extrair_metricas_conspir_found :
  extrair_metricas (u "| MÉDIA CONSPIR | **7.5/10** | |") !! "conspir_media"
  = Some (VStr (u "7.5/10")).
Proof. by vm_compute. Qed.

(** A line with MÉDIA and a decimal over 10, but not the literal label. *)
Lemma extrair_metricas_media_only :
  extrair_metricas (u "MÉDIA: 7.5/10") !! "conspir_media" = Some NA.
Proof. by vm_compute. Qed.

(** The pattern of the composite sub-score starts with the letter M. *)
Lemma pat_conspir_head :
  ∃ r1 r2, pat_conspir = RSeq (RSeq (RAtom (AChr 77)) r1) r2.
Proof. do 2 eexists. reflexivity. Qed.

Lemma re_match_conspir_other (c : N) (s : str) :
  c ≠ 77 → re_match pat_conspir (c :: s) = None.
Proof.
  intros Hc. destruct pat_conspir_head as (r1 & r2 & ->).
  unfold re_match. cbn [rmatch atom_matches].
  by destruct (N.eqb_spec c 77).
Qed.

(** No match starts in a stretch of text without the letter M. *)
Lemma re_search_conspir_skip (pre s : str) :
  Forall (λ c, c ≠ 77) pre →
  re_search pat_conspir (pre ++ s) = re_search pat_conspir s.
Proof.
  induction 1 as [|c pre Hc _ IH]; [done|].
  cbn [app re_search]. by rewrite re_match_conspir_other.
Qed.

(** C6. The row of the prompt's own table, [| **MÉDIA CONSPIR** |
    **X/10** | |], with any decimal in the place of X: the label is
    followed by the two closing emphasis marks, which the pattern does not
    allow before the bar, and the composite sub-score is not extracted. *)
Theorem extrair_metricas_template_row (valor : str) :
  Forall (λ c, py_isdecimal c = true ∨ c = 46) valor →
  extrair_metricas (linha_do_modelo valor) !! "conspir_media" = Some NA.
Proof.
  intros Hv.
  assert (Forall (λ c, c ≠ 77) valor) as Hm.
  { eapply Forall_impl; [exact Hv|]. intros c [Hd| ->]; [|done].
    intros ->. by vm_compute in Hd. }
  destruct (extrair_metricas_fields (linha_do_modelo valor))
    as (_ & _ & _ & ->).
  assert (re_search pat_conspir (linha_do_modelo valor) = None) as ->; [|done].
  unfold linha_do_modelo.
  change (u "| **MÉDIA CONSPIR** | **")
    with (u "| **" ++ 77 :: u "ÉDIA CONSPIR** | **").
  rewrite <- app_assoc.
  rewrite re_search_conspir_skip by (vm_compute; repeat constructor; done).
  cbn [app re_search].
  assert (re_match pat_conspir
            (77 :: u "ÉDIA CONSPIR** | **" ++ valor ++ u "/10** | |") = None)
    as -> by by vm_compute.
  rewrite app_assoc, <- (app_nil_r (_ ++ u "/10** | |")).
  rewrite re_search_conspir_skip; [done|].
  repeat apply Forall_app_2; [|done|]; vm_compute; repeat constructor; done.
Qed.

End ExtrairMetricas.

(** C6, on the row filled in with 7.5. *)
Lemma extrair_metricas_template_row_witness :
  @extrair_metricas latin1 (u "| **MÉDIA CONSPIR** | **7.5/10** | |")
    !! "conspir_media"
  = Some NA.
Proof.
  refine (@extrair_metricas_template_row latin1 (u "7.5") _).
  vm_compute. repeat constructor; (by left) || (by right).
Defined.

(* ===================================================================== *)
(** ** Properties of [classificar_score]                                 *)
(* ===================================================================== *)

Section ClassificarScore.
Context `{Runtime}.

(** The classification is the band of the integer, whatever the integer. *)
Lemma classificar_score_int (s : str) (n : Z) :
  py_int s = Some n → classificar_score s = banda (banda_de n).
Proof.
  intros Hn. unfold classificar_score, banda_de. rewrite Hn.
  destruct (n <=? 20)%Z; [reflexivity|].
  destruct (n <=? 40)%Z; [reflexivity|].
  destruct (n <=? 60)%Z; [reflexivity|].
  destruct (n <=? 80)%Z; reflexivity.
Qed.

Lemma classificar_score_error (s : str) :
  py_int s = None → classificar_score s = indeterminado.
Proof. intros Hn. unfold classificar_score. by rewrite Hn. Qed.

(** C3. The ten boundary scores fall in bands 1,1,2,2,3,3,4,4,5,5 of the
    five bands ordered by threshold; every string [int()] accepts is put
    in the band of its value; every string [int()] refuses, "N/A" among
    them, gets the INDETERMINADO label. *)
Theorem classificar_score_bands :
  classificar_score
    <$> [u "0"; u "20"; u "21"; u "40"; u "41"; u "60"; u "61"; u "80";
         u "81"; u "100"]
  = banda <$> [1; 1; 2; 2; 3; 3; 4; 4; 5; 5]%nat
  ∧ (∀ s n, py_int s = Some n →
       classificar_score s = banda (banda_de n)
       ∧ (banda_de n = 1%nat ↔ (n ≤ 20)%Z)
       ∧ (banda_de n = 2%nat ↔ (20 < n ≤ 40)%Z)
       ∧ (banda_de n = 3%nat ↔ (40 < n ≤ 60)%Z)
       ∧ (banda_de n = 4%nat ↔ (60 < n ≤ 80)%Z)
       ∧ (banda_de n = 5%nat ↔ (80 < n)%Z))
  ∧ (∀ s, py_int s = None → classificar_score s = indeterminado)
  ∧ py_int (u "N/A") = None
  ∧ snd indeterminado = u "INDETERMINADO".
Proof.
  split; [by vm_compute|]. split; [|split; [|by vm_compute]].
  - intros s n Hn. split; [by apply classificar_score_int|].
    unfold banda_de.
    destruct (Z.leb_spec n 20); [lia|].
    destruct (Z.leb_spec n 40); [lia|].
    destruct (Z.leb_spec n 60); [lia|].
    destruct (Z.leb_spec n 80); lia.
  - apply classificar_score_error.
Qed.

Lemma c_isspace_int (c : N) : c_isspace c = true → int_isspace c = true.
Proof.
  intros Hc. unfold int_isspace. rewrite Hc.
  destruct (N.ltb_spec c 128) as [|Hge]; [done|].
  unfold c_isspace, between in Hc.
  apply orb_true_iff in Hc as [[_ ?%N.leb_le]%andb_true_iff | ?%N.eqb_eq]; lia.
Qed.

Lemma int_lstrip_spaces (ws s : str) :
  Forall (λ c, c_isspace c = true) ws → int_lstrip (ws ++ s) = int_lstrip s.
Proof.
  induction 1 as [|c ws Hc _ IH]; [done|].
  cbn [app int_lstrip]. by rewrite (c_isspace_int c Hc).
Qed.

Lemma int_lstrip_all (ws : str) :
  Forall (λ c, c_isspace c = true) ws → int_lstrip ws = [].
Proof.
  intros Hws. rewrite <- (app_nil_r ws). by rewrite int_lstrip_spaces.
Qed.

(** What is known of an ASCII digit. *)
Lemma digit_facts (c : N) :
  between 48 57 c = true →
  48 ≤ c ≤ 57 ∧ int_isspace c = false ∧ py_todecimal c = Some (c - 48).
Proof.
  intros Hc. unfold int_isspace, c_isspace, py_todecimal. rewrite Hc.
  unfold between in *.
  apply andb_true_iff in Hc as [Hlo%N.leb_le Hhi%N.leb_le].
  destruct (N.ltb_spec c 128); [|lia].
  destruct (N.leb_spec 9 c); [|lia].
  destruct (N.leb_spec c 13); [lia|].
  destruct (N.eqb_spec c 32); [lia|]. done.
Qed.

(** What is known of a C white-space character. *)
Lemma space_facts (c : N) :
  c_isspace c = true → c ≠ 95 ∧ py_todecimal c = None.
Proof.
  intros Hc. unfold c_isspace, py_todecimal, between in *.
  apply orb_true_iff in Hc
    as [[Hlo%N.leb_le Hhi%N.leb_le]%andb_true_iff | ->%N.eqb_eq];
    [|done].
  split; [lia|].
  destruct (N.ltb_spec c 128); [|lia].
  destruct (N.leb_spec 48 c); [lia|]. done.
Qed.

(** The digits are read to their end, which white space or the end of
    the text marks. *)
Lemma int_digits_ascii (ds ws : str) :
  Forall (λ c, between 48 57 c = true) ds →
  Forall (λ c, c_isspace c = true) ws →
  ∀ (acc : Z) (n : nat),
    int_digits (ds ++ ws) false acc n
    = Some (fold_left (λ acc c, (acc * 10 + Z.of_N (c - 48))%Z) ds acc,
            (n + length ds)%nat, ws).
Proof.
  intros Hds Hws. induction Hds as [|c ds Hc _ IH]; intros acc n.
  - cbn [app fold_left length]. rewrite Nat.add_0_r.
    destruct Hws as [|c ws Hc _]; [done|].
    destruct (space_facts c Hc) as [Hne Hdec].
    cbn [int_digits]. rewrite Hdec.
    by destruct (N.eqb_spec c 95).
  - destruct (digit_facts c Hc) as (Hrange & _ & Hdec).
    cbn [app int_digits fold_left length]. rewrite Hdec.
    destruct (N.eqb_spec c 95); [lia|].
    rewrite IH. do 2 f_equal. f_equal. lia.
Qed.

(** A sign, at least one and at most 640 ASCII digits, white space before
    and after: [int()] reads the number. *)
Lemma py_int_literal (ws1 ws2 sign ds : str) :
  Forall (λ c, c_isspace c = true) ws1 →
  Forall (λ c, c_isspace c = true) ws2 →
  sign ∈ [[]; u "+"; u "-"] →
  Forall (λ c, between 48 57 c = true) ds →
  (1 ≤ length ds ≤ 640)%nat →
  py_int (ws1 ++ sign ++ ds ++ ws2)
  = Some (if bool_decide (sign = u "-") then (- valor_decimal ds)%Z
          else valor_decimal ds).
Proof.
  intros Hws1 Hws2 Hsign Hds [Hlen1 Hlen2].
  destruct ds as [|d ds]; [simpl in Hlen1; lia|].
  pose proof (Forall_inv Hds) as Hd.
  destruct (digit_facts d Hd) as (Hrange & Hnsp & _).
  assert (∀ neg : bool,
    int_after_sign neg (d :: ds ++ ws2)
    = Some (if neg then (- valor_decimal (d :: ds))%Z
            else valor_decimal (d :: ds))) as Hbody.
  { intros neg. unfold int_after_sign.
    rewrite bool_decide_eq_false_2 by (simpl; intros [=]; lia).
    rewrite (app_comm_cons ds ws2 d), (int_digits_ascii _ _ Hds Hws2).
    rewrite int_lstrip_all by done. fold (valor_decimal (d :: ds)).
    cbn [Nat.add].
    destruct (Nat.eqb_spec (length (d :: ds)) 0); [simpl in *; lia|].
    unfold int_digits_threshold.
    destruct (Nat.ltb_spec 640 (length (d :: ds))); [lia|]. done. }
  unfold py_int. rewrite int_lstrip_spaces by done.
  repeat (apply elem_of_cons in Hsign as [->|Hsign]);
    [| | |by apply elem_of_nil in Hsign].
  - cbn [app int_lstrip]. rewrite Hnsp.
    destruct (N.eqb_spec d 43); [lia|]. destruct (N.eqb_spec d 45); [lia|].
    rewrite bool_decide_eq_false_2 by done. apply (Hbody false).
  - change (u "+" ++ (d :: ds) ++ ws2) with (43 :: d :: ds ++ ws2).
    rewrite bool_decide_eq_false_2 by done. apply (Hbody false).
  - change (u "-" ++ (d :: ds) ++ ws2) with (45 :: d :: ds ++ ws2).
    rewrite bool_decide_eq_true_2 by done. apply (Hbody true).
Qed.

(** C10. No range is checked: whatever integer [int()] reads from the
    string is classified, a negative one in the lowest band and one above
    80, however large, in the highest; and [int()] reads the number of
    every literal of ASCII digits with a sign before it or white space
    around it. *)
Theorem classificar_score_no_range_check :
  (∀ s n, py_int s = Some n →
     classificar_score s = banda (banda_de n)
     ∧ ((n < 0)%Z →
        classificar_score s = (u "green", u "ALTAMENTE CONFIÁVEL"))
     ∧ ((80 < n)%Z →
        classificar_score s = (u "bold red", u "DESINFORMAÇÃO CONFIRMADA")))
  ∧ (∀ ws1 ws2 sign ds,
       Forall (λ c, c_isspace c = true) ws1 →
       Forall (λ c, c_isspace c = true) ws2 →
       sign ∈ [[]; u "+"; u "-"] →
       Forall (λ c, between 48 57 c = true) ds →
       (1 ≤ length ds ≤ 640)%nat →
       py_int (ws1 ++ sign ++ ds ++ ws2)
       = Some (if bool_decide (sign = u "-") then (- valor_decimal ds)%Z
               else valor_decimal ds)).
Proof.
  split; [|apply py_int_literal].
  intros s n Hn. rewrite (classificar_score_int s n Hn). split; [done|].
  unfold banda_de. split; intros Hr.
  - by destruct (Z.leb_spec n 20); [|lia].
  - destruct (Z.leb_spec n 20); [lia|].
    destruct (Z.leb_spec n 40); [lia|].
    destruct (Z.leb_spec n 60); [lia|].
    by destruct (Z.leb_spec n 80); [lia|].
Qed.

(** Strings outside 0 to 100 that [int()] accepts: a sign, white space
    around, underscores between digits, leading zeros. *)
Lemma py_int_accepts :
  py_int <$> [u " -7 "; u "+101"; u "-0"; u "1_000_000"; u "0099";
              cat [nl; u "250"; nl]; u "100000000000000000000000000000"]
  = Some <$> [-7; 101; 0; 1000000; 99; 250; 10 ^ 29]%Z.
Proof. by vm_compute. Qed.

(** Strings [int()] refuses. *)
Lemma py_int_refuses :
  py_int <$> [u ""; u "N/A"; u "9.5"; u "- 7"; u "+"; u "1__0"; u "_1";
              u "1_"; u "0x1F"; u "95/100"; [28; 55]]
  = replicate 11 None.
Proof. by vm_compute. Qed.

End ClassificarScore.

(** C3, on the sentinel. *)
Lemma classificar_score_bands_witness :
  @classificar_score latin1 (u "N/A") = indeterminado.
Proof.
  refine (proj1 (proj2 (proj2 (@classificar_score_bands latin1))) (u "N/A") _).
  reflexivity.
Defined.

(** C10, on a negative score and on one of twenty digits. *)
Lemma classificar_score_no_range_check_witness :
  @classificar_score latin1 (u " -7 ") = (u "green", u "ALTAMENTE CONFIÁVEL")
  ∧ @classificar_score latin1 (u "+12345678901234567890")
    = (u "bold red", u "DESINFORMAÇÃO CONFIRMADA").
Proof.
  split.
  - refine (proj1 (proj2 (proj1 (@classificar_score_no_range_check latin1)
              (u " -7 ") (-7)%Z _)) _); [reflexivity | lia].
  - refine (proj2 (proj2 (proj1 (@classificar_score_no_range_check latin1)
              (u "+12345678901234567890") 12345678901234567890%Z _)) _);
      [reflexivity | lia].
Defined.

(* ===================================================================== *)
(** ** Properties of the evidence formatters                             *)
(* ===================================================================== *)

(** The loop of [gerar_tabela_fontes_html] appends one row per item, in
    the order of the items, numbered from [start]. *)
(** [str_split]: pieces that hold no separator, and the separator. *)
Lemma startswith_compat (p s rest : str) :
  compat p s = false → startswith p (s ++ rest) = false.
Proof.
  revert s. induction p as [|a p IH]; intros [|b s]; try done.
  cbn [compat startswith app].
  destruct (a =? b); [apply IH|done].
Qed.

Lemma startswith_app (p rest : str) : startswith p (p ++ rest) = true.
Proof.
  induction p as [|a p IH]; [done|]. cbn [startswith app].
  by rewrite N.eqb_refl, IH.
Qed.

Lemma split_aux_livre (sep a : str) :
  ∀ (rest cur : str),
    livre sep a = true →
    split_aux sep (a ++ rest) cur 0 = split_aux sep rest (cur ++ a) 0.
Proof.
  induction a as [|c a IH]; intros rest cur Hl.
  - by rewrite app_nil_r.
  - cbn [livre] in Hl. apply andb_true_iff in Hl as [Hc Hl].
    apply negb_true_iff in Hc.
    cbn [app split_aux].
    change (c :: a ++ rest) with ((c :: a) ++ rest).
    rewrite (startswith_compat sep (c :: a) rest Hc).
    rewrite IH by done. by rewrite <- app_assoc.
Qed.

Lemma split_aux_skip (sep a : str) :
  ∀ (rest cur : str),
    split_aux sep (a ++ rest) cur (length a) = split_aux sep rest cur 0.
Proof. induction a as [|c a IH]; intros rest cur; [done|]. apply IH. Qed.

Lemma split_aux_sep (sep rest cur : str) :
  sep ≠ [] →
  split_aux sep (sep ++ rest) cur 0 = cur :: split_aux sep rest [] 0.
Proof.
  destruct sep as [|c p] eqn:Hsep; [done|]. intros _.
  cbn [app split_aux].
  change (c :: p ++ rest) with ((c :: p) ++ rest).
  rewrite startswith_app. cbn [length].
  replace (S (length p) - 1)%nat with (length p) by lia.
  by rewrite split_aux_skip.
Qed.

Lemma compat_app (p s rest : str) :
  compat p s = false → compat p (s ++ rest) = false.
Proof.
  revert s. induction p as [|x p IH]; intros [|y s]; try done.
  cbn [compat app]. destruct (x =? y); [apply IH|done].
Qed.

Lemma livre_app (sep a b : str) :
  livre sep a = true → livre sep b = true → livre sep (a ++ b) = true.
Proof.
  intros Ha Hb. induction a as [|c a IH]; [done|].
  cbn [livre] in Ha. apply andb_true_iff in Ha as [Hc Ha].
  apply negb_true_iff in Hc.
  change ((c :: a) ++ b) with (c :: (a ++ b)). cbn [livre].
  rewrite IH by done. rewrite andb_true_r. apply negb_true_iff.
  change (c :: (a ++ b)) with ((c :: a) ++ b). by apply compat_app.
Qed.

Lemma livre_concat (sep : str) (ps : list str) :
  Forall (λ p, livre sep p = true) ps → livre sep (concat ps) = true.
Proof.
  induction 1 as [|p ps Hp _ IH]; [done|]. by apply livre_app.
Qed.

(** A text without the first character of [sep] holds no [sep]. *)
Lemma livre_sem (c : N) (p a : str) : c ∉ a → livre (c :: p) a = true.
Proof.
  induction a as [|b a IH]; [done|]. intros Hn.
  apply not_elem_of_cons in Hn as [Hb Ha].
  cbn [livre compat]. rewrite IH by done.
  destruct (N.eqb_spec c b); [done|done].
Qed.

(** The characters of [str(i)]: the minus sign and the ten digits. *)
Lemma u_cons (a : ascii) (s : string) :
  N_of_ascii a < 128 → u (String a s) = N_of_ascii a :: u s.
Proof.
  intros Ha. unfold u. cbn [list_ascii_of_string map utf8_decode].
  by destruct (N.ltb_spec (N_of_ascii a) 128); [|lia].
Qed.

Lemma string_of_uint_chars (d : Decimal.uint) :
  Forall (λ c, between 48 57 c = true) (u (NilEmpty.string_of_uint d)).
Proof.
  induction d; cbn [NilEmpty.string_of_uint];
    [constructor|..]; (rewrite u_cons by (vm_compute; done));
    (constructor; [by vm_compute|done]).
Qed.

Lemma str_of_int_chars (i : Z) :
  Forall (λ c, c = 45 ∨ between 48 57 c = true) (str_of_int i).
Proof.
  unfold str_of_int.
  assert (∀ d, Forall (λ c, c = 45 ∨ between 48 57 c = true)
                 (u (NilZero.string_of_uint d))) as Hu.
  { intros d. unfold NilZero.string_of_uint.
    destruct d;
      [by constructor; [right|]
      |eapply Forall_impl; [apply string_of_uint_chars|]; cbv beta; auto..]. }
  destruct (Z.to_int i) as [d|d]; cbn [NilZero.string_of_int]; [apply Hu|].
  rewrite u_cons by (vm_compute; done). constructor; [by left|apply Hu].
Qed.

Lemma str_of_int_sem (c : N) (i : Z) :
  c ≠ 45 → between 48 57 c = false → c ∉ str_of_int i.
Proof.
  intros H1 H2 Hin.
  pose proof (str_of_int_chars i) as Hall.
  rewrite Forall_forall in Hall. destruct (Hall c Hin) as [->|Hb]; [done|].
  congruence.
Qed.

Lemma livre_head (sep a : str) (c : N) :
  head sep = Some c → c ∉ a → livre sep a = true.
Proof.
  destruct sep as [|c' p]; [done|]. intros [= ->]. apply livre_sem.
Qed.

Lemma str_split_hd (sep c0 rest : str) :
  sep ≠ [] → livre sep c0 = true →
  hd [] (str_split sep (c0 ++ sep ++ rest)) = c0.
Proof.
  intros Hsep Hl. unfold str_split.
  rewrite split_aux_livre by done. by rewrite split_aux_sep.
Qed.

Lemma linha_fonte_celulas (i : Z) (r : item) :
  linha_fonte i r = (nl ++ sp 8) ++ u "<tr>" ++ celulas i r ++ u "</tr>".
Proof.
  unfold linha_fonte, celulas, trecho, cat. cbn [concat].
  rewrite <- !app_assoc. by rewrite app_nil_r.
Qed.

Lemma tabela_abre_cabecalho :
  tabela_abre
  = cat [nl; sp 4; u "<table>"; nl; sp 8; u "<thead>"; nl; sp 12]
    ++ u "<tr>"
    ++ (cabecalho ++ u "</tr>" ++ cat [nl; sp 8; u "</thead>"; nl; sp 8; u "<tbody>"]).
Proof. reflexivity. Qed.

Lemma livre_celulas (sep : str) (i : Z) (r : item) :
  sep = u "<tr>" ∨ sep = u "</tr>" →
  sem_marca r → livre sep (celulas i r) = true.
Proof.
  intros Hsep Hr. unfold sem_marca in Hr. rewrite !Forall_cons in Hr.
  destruct Hr as (Hurl & Htit & Hdat & Htre & _).
  assert (∀ v : str, 60 ∉ v → livre sep v = true) as Hv.
  { intros v Hv. apply (livre_head _ _ 60); [|done].
    by destruct Hsep as [-> | ->]. }
  pose proof (Hv _ (str_of_int_sem 60 i ltac:(done) ltac:(done))) as Hi.
  unfold celulas, cat. apply livre_concat.
  repeat (apply Forall_cons; split;
          [first [assumption | by apply Hv
                 | by destruct Hsep as [-> | ->]]|]).
  constructor.
Qed.

Lemma split_linhas (rs : list item) :
  ∀ (start : Z) (cur : str),
    Forall sem_marca rs →
    split_aux (u "<tr>")
      (concat (imap (λ k r, linha_fonte (Z.of_nat k + start) r) rs)
       ++ tabela_fecha) cur 0
    = pecas cur start rs.
Proof.
  induction rs as [|r rs IH]; intros start cur Hrs.
  - cbn [imap concat app pecas].
    rewrite <- (app_nil_r tabela_fecha) at 1.
    by rewrite split_aux_livre.
  - apply Forall_cons in Hrs as [Hr Hrs].
    cbn [imap concat pecas]. rewrite linha_fonte_celulas.
    rewrite <- !app_assoc.
    rewrite (app_assoc nl). rewrite split_aux_livre by done.
    rewrite split_aux_sep by done.
    rewrite (app_assoc (celulas _ _)). rewrite split_aux_livre.
    2:{ apply livre_app; [apply livre_celulas; auto|done]. }
    rewrite (imap_ext _ (λ k r, linha_fonte (Z.of_nat k + (start + 1)) r))
      by (intros; simpl; f_equal; lia).
    rewrite IH by done. reflexivity.
Qed.

Lemma corta_pecas (rs : list item) :
  ∀ (start : Z) (c0 rest : str),
    livre (u "</tr>") c0 = true →
    Forall sem_marca rs →
    (λ p, hd [] (str_split (u "</tr>") p))
      <$> pecas (c0 ++ u "</tr>" ++ rest) start rs
    = c0 :: imap (λ k r, celulas (Z.of_nat k + start) r) rs.
Proof.
  induction rs as [|r rs IH]; intros start c0 rest Hc0 Hrs.
  - cbn [pecas fmap list_fmap imap]. rewrite <- !app_assoc.
    by rewrite str_split_hd.
  - apply Forall_cons in Hrs as [Hr Hrs].
    cbn [pecas fmap list_fmap imap]. rewrite <- !app_assoc.
    rewrite str_split_hd by done. f_equal.
    replace (celulas start r ++ u "</tr>")
      with (celulas start r ++ u "</tr>" ++ []) by (by rewrite app_nil_r).
    rewrite IH; [|apply livre_celulas; auto|done].
    f_equal. apply imap_ext. intros k r' _. simpl. f_equal. lia.
Qed.

Lemma linhas_fold (rs : list item) :
  ∀ (start : Z) (linhas : str),
    fold_left (λ (linhas : str) '(i, r), linhas ++ linha_fonte i r)
      (enumerate start rs) linhas
    = linhas ++ concat (imap (λ k r, linha_fonte (Z.of_nat k + start) r) rs).
Proof.
  induction rs as [|r rs IH]; intros start linhas.
  - by rewrite app_nil_r.
  - cbn [enumerate fold_left imap concat]. rewrite IH, <- app_assoc.
    do 2 f_equal. f_equal. apply imap_ext. intros k r' _. simpl.
    f_equal. lia.
Qed.

(** C5 (amended). When none of the texts a row shows of its item holds
    [<], the rows of the body of the table, read back from the text
    between each [<tr>] and the [</tr>] after it, are exactly one per
    result item, in the order of the items, the row at position [k] (from
    0) holding the citation index [k + 1] and the texts of the item at
    position [k]; with one item or more the row of the head comes before
    them, and without items there is no row at all. *)
Theorem gerar_tabela_fontes_html_rows (evidencias : Evidencias) :
  let rs := default [] (results evidencias) in
  let linhas := linhas_tr (gerar_tabela_fontes_html evidencias) in
  Forall sem_marca rs →
  tail linhas = imap (λ k r, celulas (Z.of_nat k + 1) r) rs
  ∧ length (tail linhas) = length rs
  ∧ (∀ k r, rs !! k = Some r →
       tail linhas !! k = Some (celulas (Z.of_nat k + 1) r))
  ∧ linhas = match rs with [] => [] | _ :: _ => cabecalho :: tail linhas end.
Proof.
  intros rs linhas Hrs.
  assert (linhas = match rs with
                   | [] => []
                   | _ :: _ =>
                       cabecalho
                       :: imap (λ k r, celulas (Z.of_nat k + 1) r) rs
                   end) as Hl.
  { unfold linhas, gerar_tabela_fontes_html. fold rs.
    destruct rs as [|r rs'] eqn:Heq; [done|]. rewrite <- Heq in *.
    rewrite linhas_fold. cbn [app]. unfold cat at 1. cbn [concat].
    rewrite app_nil_r, tabela_abre_cabecalho.
    unfold linhas_tr, str_split. rewrite <- !app_assoc.
    rewrite split_aux_livre by done. rewrite split_aux_sep by done.
    cbn [tail app].
    rewrite (app_assoc cabecalho), (app_assoc (cabecalho ++ _)).
    rewrite split_aux_livre by done.
    rewrite split_linhas by done. cbn [app].
    rewrite <- !app_assoc. by rewrite corta_pecas. }
  assert (tail linhas = imap (λ k r, celulas (Z.of_nat k + 1) r) rs) as Ht.
  { rewrite Hl. by destruct rs. }
  split; [done|]. rewrite Ht. split; [apply length_imap|]. split.
  - intros k r Hk. by rewrite list_lookup_imap, Hk.
  - rewrite Hl. by destruct rs.
Qed.

(** C5, on three items. *)
Lemma gerar_tabela_fontes_html_rows_witness :
  tail (linhas_tr
          (gerar_tabela_fontes_html
             {| results := Some tres_fontes; answer := None |}))
  = imap (λ k r, celulas (Z.of_nat k + 1) r) tres_fontes
  ∧ length (tail (linhas_tr (gerar_tabela_fontes_html
                     {| results := Some tres_fontes; answer := None |})))
    = 3%nat.
Proof.
  destruct (gerar_tabela_fontes_html_rows
              {| results := Some tres_fontes; answer := None |})
    as (Hl & Hn & _).
  - unfold sem_marca.
    repeat (apply Forall_cons; split); try apply Forall_nil;
      by apply (bool_decide_unpack _).
  - split; [exact Hl|exact Hn].
Defined.

(** C5 as stated fails: the texts of an item are put in the row as they
    are, and one item whose title closes its cell and its row and opens
    another gives two rows of the body. *)
Lemma gerar_tabela_fontes_html_markup :
  length [fonte_com_marca] = 1%nat
  ∧ length (tail (linhas_tr (gerar_tabela_fontes_html
                      {| results := Some [fonte_com_marca]; answer := None |})))
    = 2%nat.
Proof. split; [reflexivity|]. vm_compute. reflexivity. Qed.

(** C7. With no result, the key absent or the list empty, the prompt gets
    the placeholder sentence and the page the placeholder paragraph. *)
Theorem empty_evidence_placeholders (resposta : option str) :
  let sem_chave := {| results := None; answer := resposta |} in
  let vazia := {| results := Some []; answer := resposta |} in
  formatar_evidencias_para_prompt sem_chave = u "Nenhuma evidência encontrada."
  ∧ formatar_evidencias_para_prompt vazia = u "Nenhuma evidência encontrada."
  ∧ gerar_tabela_fontes_html sem_chave
    = u "<p><em>Nenhuma fonte encontrada na busca.</em></p>"
  ∧ gerar_tabela_fontes_html vazia
    = u "<p><em>Nenhuma fonte encontrada na busca.</em></p>".
Proof. by repeat split. Qed.

(* ===================================================================== *)
(** ** Properties of [determinar_badge_class]                            *)
(* ===================================================================== *)

Section BadgeClass.
Context `{Runtime}.

(** A code written in ASCII letters of either case is the code itself once
    in upper case. *)
Lemma upper_ascii_case (v K : str) :
  Forall (λ b, between 65 90 b = true) K →
  Forall2 (λ a b, a = b ∨ a = b + 32) v K →
  upper v = K.
Proof.
  intros HK Hv. induction Hv as [|a b v K Hab Hv IH]; [done|].
  apply Forall_cons in HK as [Hb HK]. unfold upper in *.
  cbn [flat_map]. rewrite (IH HK). unfold py_toupper, between in *.
  apply andb_true_iff in Hb as [Hlo%N.leb_le Hhi%N.leb_le].
  destruct Hab as [->| ->].
  - destruct (N.ltb_spec b 128); [|lia].
    destruct (N.leb_spec 97 b); [lia|]. done.
  - destruct (N.ltb_spec (b + 32) 128); [|lia].
    destruct (N.leb_spec 97 (b + 32)); [|lia].
    destruct (N.leb_spec (b + 32) 122); [|lia].
    simpl. f_equal. lia.
Qed.

Lemma mapping_values (k x : str) :
  mapping !! k = Some x →
  x ∈ [u "badge-verdadeiro"; u "badge-falso"; u "badge-parcial";
       u "badge-contexto"; u "badge-inconclusivo"].
Proof.
  unfold mapping. intros Hk.
  repeat (apply lookup_insert_Some in Hk as [[_ <-]|[_ Hk]];
          [set_solver|]).
  apply lookup_singleton_Some in Hk as [_ <-]. set_solver.
Qed.

(** C8. The class is found under the code in upper case: each of the six
    codes has its class, DESATUALIZADO the one of INCONCLUSIVO; a code
    that is not a key has the class badge-inconclusivo; the result is
    always one of the five classes; and a code spelt in ASCII letters of
    any case is treated as the code itself. *)
Theorem determinar_badge_class_total (veredito : str) :
  (upper veredito = u "VERDADEIRO" →
     determinar_badge_class veredito = u "badge-verdadeiro")
  ∧ (upper veredito = u "FALSO" →
     determinar_badge_class veredito = u "badge-falso")
  ∧ (upper veredito = u "PARCIAL" →
     determinar_badge_class veredito = u "badge-parcial")
  ∧ (upper veredito = u "CONTEXTO" →
     determinar_badge_class veredito = u "badge-contexto")
  ∧ (upper veredito = u "INCONCLUSIVO" →
     determinar_badge_class veredito = u "badge-inconclusivo")
  ∧ (upper veredito = u "DESATUALIZADO" →
     determinar_badge_class veredito = u "badge-inconclusivo")
  ∧ (upper veredito ∉ [u "VERDADEIRO"; u "FALSO"; u "PARCIAL"; u "CONTEXTO";
                       u "INCONCLUSIVO"; u "DESATUALIZADO"] →
     determinar_badge_class veredito = u "badge-inconclusivo")
  ∧ determinar_badge_class veredito
    ∈ [u "badge-verdadeiro"; u "badge-falso"; u "badge-parcial";
       u "badge-contexto"; u "badge-inconclusivo"]
  ∧ (∀ K, K ∈ [u "VERDADEIRO"; u "FALSO"; u "PARCIAL"; u "CONTEXTO";
               u "INCONCLUSIVO"; u "DESATUALIZADO"] →
       Forall2 (λ a b, a = b ∨ a = b + 32) veredito K →
       determinar_badge_class veredito = determinar_badge_class K).
Proof.
  unfold determinar_badge_class.
  repeat (split; [by intros ->|]).
  split; [|split].
  - intros Hk. unfold mapping.
    rewrite !lookup_insert_ne, lookup_singleton_ne; [done|..];
      intros Heq; apply Hk; rewrite <- Heq; set_solver.
  - destruct (mapping !! upper veredito) as [x|] eqn:Hk.
    + by apply mapping_values in Hk.
    + set_solver.
  - intros K HK Hv.
    assert (Forall (λ b, between 65 90 b = true) K) as Hup.
    { repeat (apply elem_of_cons in HK as [->|HK];
              [vm_compute; repeat constructor|]).
      by apply elem_of_nil in HK. }
    rewrite (upper_ascii_case veredito K Hup Hv).
    rewrite (upper_ascii_case K K Hup); [done|].
    clear. induction K; constructor; auto.
Qed.

End BadgeClass.

(** C8, on the code FALSO in lower case and with a capital. *)
Lemma determinar_badge_class_total_witness :
  @determinar_badge_class latin1 (u "falso") = u "badge-falso"
  ∧ @determinar_badge_class latin1 (u "Falso")
    = @determinar_badge_class latin1 (u "FALSO").
Proof.
  split.
  - refine (proj1 (proj2 (@determinar_badge_class_total latin1 (u "falso"))) _).
    reflexivity.
  - refine (proj2 (proj2 (proj2 (proj2 (proj2 (proj2 (proj2 (proj2
      (@determinar_badge_class_total latin1 (u "Falso"))))))))) (u "FALSO") _ _).
    + set_solver.
    + vm_compute.
      repeat (constructor;
              [first [left; reflexivity | right; reflexivity]|]).
      constructor.
Defined.

(* ===================================================================== *)
(** ** More on [com_retry]: what it returns, how often it calls          *)
(* ===================================================================== *)

Section ComRetryLoop.
Context {World Exc Val Delay : Type}.
Variable is_Exception : Exc → bool.

(** When the last index of the loop is the last attempt, the loop ends
    after some retried failures [es] in one of four ways: the operation
    returns; the operation raises what the wrapper lets through; the
    notice of a failure is refused; the wait after a notice raises. *)
Lemma wrapper_loop_ends (func : World → outcome Exc Val * World)
    (console_print : Z → Exc → Delay → World → option Exc * World)
    (time_sleep : Delay → World → option Exc * World)
    (N : Z) (d : Delay) (n : nat) :
  ∀ (a : nat) (w : World) (out : list (event Exc Delay)),
    (Z.of_nat (a + S n) = N)%Z →
    ∃ (es : list Exc) (w0 w1 w' : World),
      (length es ≤ n)%nat
      ∧ fails func console_print time_sleep d (Z.of_nat a + 1) w es w0
      ∧ ((∃ v, func w0 = (Returned v, w')
               ∧ wrapper_loop is_Exception func console_print time_sleep N d
                   (Z.of_nat <$> seq a (S n)) w out
                 = (Returns v, w', out ++ notices (Z.of_nat a + 1) d es))
         ∨ (∃ e, func w0 = (Raised e, w')
               ∧ wrapper_loop is_Exception func console_print time_sleep N d
                   (Z.of_nat <$> seq a (S n)) w out
                 = (Raises e, w', out ++ notices (Z.of_nat a + 1) d es))
         ∨ (∃ e x, (length es < n)%nat
               ∧ func w0 = (Raised e, w1)
               ∧ console_print (Z.of_nat (a + length es) + 1)%Z e d w1
                 = (Some x, w')
               ∧ wrapper_loop is_Exception func console_print time_sleep N d
                   (Z.of_nat <$> seq a (S n)) w out
                 = (Raises x, w', out ++ notices (Z.of_nat a + 1) d es))
         ∨ (∃ e x w2, (length es < n)%nat
               ∧ func w0 = (Raised e, w1)
               ∧ console_print (Z.of_nat (a + length es) + 1)%Z e d w1
                 = (None, w2)
               ∧ time_sleep d w2 = (Some x, w')
               ∧ wrapper_loop is_Exception func console_print time_sleep N d
                   (Z.of_nat <$> seq a (S n)) w out
                 = (Raises x, w',
                    out ++ notices (Z.of_nat a + 1) d es
                    ++ [Notice (Z.of_nat (a + length es) + 1) e d]))).
Proof.
  induction n as [|n IH]; intros a w out HN;
    cbn [seq fmap list_fmap wrapper_loop];
    destruct (func w) as [[v|e] w1] eqn:Hcall.
  - exists [], w, w1, w1. split; [done|]. split; [constructor|].
    left. exists v. by rewrite app_nil_r.
  - exists [], w, w1, w1. split; [done|]. split; [constructor|].
    right; left. exists e. rewrite app_nil_r. split; [done|].
    destruct (is_Exception e); [|done].
    destruct (Z.eqb_spec (Z.of_nat a) (N - 1)); [done|lia].
  - exists [], w, w1, w1. split; [simpl; lia|]. split; [constructor|].
    left. exists v. by rewrite app_nil_r.
  - destruct (is_Exception e) eqn:He.
    + destruct (Z.eqb_spec (Z.of_nat a) (N - 1)); [lia|].
      destruct (console_print (Z.of_nat a + 1)%Z e d w1) as [[x|] w2]
        eqn:Hprint.
      { exists [], w, w1, w2. split; [simpl; lia|]. split; [constructor|].
        right; right; left. exists e, x. cbn [length].
        rewrite Nat.add_0_r, app_nil_r. split; [lia|done]. }
      destruct (time_sleep d w2) as [[x|] w3] eqn:Hsleep.
      { exists [], w, w1, w3. split; [simpl; lia|]. split; [constructor|].
        right; right; right. exists e, x, w2. cbn [length notices app].
        rewrite Nat.add_0_r. split; [lia|done]. }
      destruct (IH (S a) w3 (out ++ [Notice (Z.of_nat a + 1) e d; Sleep d]))
        as (es & w0 & w4 & w' & Hlen & Hf & Hend); [lia|].
      exists (e :: es), w0, w4, w'. split; [simpl; lia|].
      split.
      { econstructor; [done..|].
        by replace (Z.of_nat a + 1 + 1)%Z with (Z.of_nat (S a) + 1)%Z
          by lia. }
      cbn [seq fmap list_fmap] in Hend. cbn [notices length app].
      replace (Z.of_nat a + 1 + 1)%Z with (Z.of_nat (S a) + 1)%Z by lia.
      replace (a + S (length es))%nat with (S a + length es)%nat by lia.
      destruct Hend as [(v & Hc & Hr)|[(e' & Hc & Hr)|[(e' & x & Hl & Hc & Hp & Hr)
                        |(e' & x & w5 & Hl & Hc & Hp & Hs & Hr)]]];
        rewrite <- ?app_assoc in Hr; cbn [app] in Hr.
      * left. by exists v.
      * right; left. by exists e'.
      * right; right; left. exists e', x. split; [lia|done].
      * right; right; right. exists e', x, w5. split; [lia|done].
    + exists [], w, w1, w1. split; [simpl; lia|]. split; [constructor|].
      right; left. exists e. by rewrite app_nil_r.
Qed.

End ComRetryLoop.

Section ComRetryBudget.
Context {World Exc Val Delay : Type}.
Variable is_Exception : Exc → bool.
Variable console_print : Z → Exc → Delay → World → option Exc * World.
Variable time_sleep : Delay → World → option Exc * World.

(** X1. With at least one attempt the wrapper never returns [None]. It
    returns a value the operation returned, or it raises: an error the
    operation raised, or what the console raised on a notice, or what the
    clock raised on a wait; the world is the one that call left. *)
Theorem com_retry_returns_or_raises
    (func : World → outcome Exc Val * World) (N : Z) (d : Delay) (w : World) :
  (1 ≤ N)%Z →
  ∃ (w0 w' : World) (out : list (event Exc Delay)),
    (∃ v, func w0 = (Returned v, w')
          ∧ com_retry is_Exception func console_print time_sleep N d w
            = (Returns v, w', out))
    ∨ (∃ e, com_retry is_Exception func console_print time_sleep N d w
            = (Raises e, w', out)
          ∧ (func w0 = (Raised e, w')
             ∨ (∃ i e0, console_print i e0 d w0 = (Some e, w'))
             ∨ time_sleep d w0 = (Some e, w'))).
Proof.
  intros HN. unfold com_retry, range.
  destruct (Z.to_nat N) as [|n] eqn:Hn; [lia|].
  destruct (wrapper_loop_ends is_Exception func console_print time_sleep
              N d n 0 w [])
    as (es & w0 & w1 & w' & _ & _ & Hend); [lia|].
  destruct Hend as [(v & Hc & Hr)|[(e & Hc & Hr)|[(e & x & _ & Hc & Hp & Hr)
                    |(e & x & w2 & _ & Hc & Hp & Hs & Hr)]]].
  - exists w0, w', (notices 1 d es). left. exists v. by rewrite Hr.
  - exists w0, w', (notices 1 d es). right. exists e. rewrite Hr. auto.
  - exists w1, w', (notices 1 d es). right. exists x. rewrite Hr.
    split; [done|]. right; left. by exists (Z.of_nat (0 + length es) + 1)%Z, e.
  - eexists w2, w', _. right. exists x. rewrite Hr. auto.
Qed.

(** The count of calls goes up by one with each retried failure. *)
Lemma fails_contada (func : World → outcome Exc Val * World)
    (d : Delay) (from : Z) (w : World) (es : list Exc) (n : nat)
    (wn' : World * nat) :
  fails (contada func) (λ i e d, nao_contada (console_print i e d))
    (λ d, nao_contada (time_sleep d)) d from (w, n) es wn' →
  wn'.2 = (n + length es)%nat.
Proof.
  revert from w n. induction es as [|e es IH]; intros from w n Hf.
  - inversion Hf; subst. simpl. lia.
  - inversion Hf as [|? ? ? [w1 n1] [w2 n2] [w3 n3] ? ? Hcall Hp Hs Hrest];
      subst.
    unfold contada in Hcall. unfold nao_contada in Hp, Hs.
    simpl in Hcall, Hp, Hs.
    destruct (func w) as [o w1']. injection Hcall as _ _ <-.
    destruct (console_print from e d w1) as [o2 w2']. injection Hp as _ _ <-.
    destruct (time_sleep d w2) as [o3 w3']. injection Hs as _ _ <-.
    apply IH in Hrest. simpl. lia.
Qed.

(** X2. However the operation, the console and the clock behave, the
    wrapper calls the operation at most [tentativas] times. What it has
    printed and waited for is the notices of its first calls in order,
    numbered from 1, each followed by its wait; the number of calls is one
    more than the number of those notices. The one exception is a wait
    that raises: then the last notice is printed and not waited for, and
    the calls are as many as the notices. *)
Theorem com_retry_call_budget
    (func : World → outcome Exc Val * World) (N : Z) (d : Delay)
    (w : World) (n0 : nat) :
  ∃ (es : list Exc),
    ((com_retry is_Exception (contada func)
        (λ i e d, nao_contada (console_print i e d))
        (λ d, nao_contada (time_sleep d)) N d (w, n0)).2 = notices 1 d es
     ∨ ∃ e x w0 w',
         (com_retry is_Exception (contada func)
            (λ i e d, nao_contada (console_print i e d))
            (λ d, nao_contada (time_sleep d)) N d (w, n0)).2
         = notices 1 d es ++ [Notice (Z.of_nat (length es) + 1) e d]
         ∧ time_sleep d w0 = (Some x, w')
         ∧ (Z.of_nat (length es) + 1 ≤ N - 1)%Z)
    ∧ (com_retry is_Exception (contada func)
         (λ i e d, nao_contada (console_print i e d))
         (λ d, nao_contada (time_sleep d)) N d (w, n0)).1.2.2
      = (if (N <=? 0)%Z then n0 else n0 + length es + 1)%nat
    ∧ (Z.of_nat (length es) ≤ Z.max 0 (N - 1))%Z.
Proof.
  destruct (Z.leb_spec N 0) as [HN|HN].
  - exists []. rewrite com_retry_nonpositive by done. simpl.
    split; [by left|]. split; [done|lia].
  - unfold com_retry, range.
    destruct (Z.to_nat N) as [|n] eqn:Hn; [lia|].
    destruct (wrapper_loop_ends is_Exception (contada func)
                (λ i e d, nao_contada (console_print i e d))
                (λ d, nao_contada (time_sleep d)) N d n 0 (w, n0) [])
      as (es & w0 & [w1 n1] & [w' n'] & Hlen & Hf & Hend); [lia|].
    exists es. apply fails_contada in Hf.
    destruct Hend as [(v & Hc & ->)|[(e & Hc & ->)|[(e & x & Hl & Hc & Hp & ->)
                      |(e & x & [w2 n2] & Hl & Hc & Hp & Hs & ->)]]];
      unfold contada in Hc; unfold nao_contada in *; simpl in *;
      destruct (func w0.1) as [o wa]; injection Hc as _ <- <-.
    + split; [by left|]. split; lia.
    + split; [by left|]. split; lia.
    + destruct (console_print (Z.of_nat (length es) + 1)%Z e d wa)
        as [o2 wb]. injection Hp as _ _ <-.
      split; [by left|]. split; lia.
    + destruct (console_print (Z.of_nat (length es) + 1)%Z e d wa)
        as [o2 wb]. injection Hp as _ <- <-.
      destruct (time_sleep d wb) as [o3 wc] eqn:Hsl. injection Hs as -> <- <-.
      split; [|split; lia].
      right. exists e, x, wb, wc. split; [done|]. split; [done|lia].
Qed.

(** X3. An error that is not an [Exception] is never retried: after any
    number of retried failures, with attempts left or not, it leaves the
    wrapper at once, with no notice of its own and no further call. *)
Theorem com_retry_not_exception
    (func : World → outcome Exc Val * World) (N : Z) (d : Delay)
    (w w' w'' : World) (es : list Exc) (e : Exc) :
  Forall (λ e, is_Exception e = true) es →
  fails func console_print time_sleep d 1 w es w' →
  (Z.of_nat (length es) < N)%Z →
  func w' = (Raised e, w'') →
  is_Exception e = false →
  com_retry is_Exception func console_print time_sleep N d w
  = (Raises e, w'', notices 1 d es).
Proof.
  intros Hex Hf Hlen Hcall He. unfold com_retry. rewrite range_seq.
  rewrite (wrapper_loop_fails is_Exception func console_print time_sleep
             N d es w w' 0 (Z.to_nat N) []);
    [|done|done|lia|simpl; lia].
  simpl.
  destruct (Z.to_nat N - length es)%nat as [|m] eqn:Hm; [lia|].
  simpl. by rewrite Hcall, He.
Qed.

(** X20. A notice the console refuses ends the retries: when a failure
    that would be retried (an [Exception], with attempts left) has a notice
    on which [console.print] raises, the wrapper raises the console's error
    in the place of the operation's and does not call the operation
    again. *)
Theorem com_retry_notice_refused
    (func : World → outcome Exc Val * World) (N : Z) (d : Delay)
    (w w' w1 w'' : World) (es : list Exc) (e x : Exc) :
  Forall (λ e, is_Exception e = true) es →
  fails func console_print time_sleep d 1 w es w' →
  (Z.of_nat (length es) + 1 < N)%Z →
  func w' = (Raised e, w1) →
  is_Exception e = true →
  console_print (Z.of_nat (length es) + 1) e d w1 = (Some x, w'') →
  com_retry is_Exception func console_print time_sleep N d w
  = (Raises x, w'', notices 1 d es).
Proof.
  intros Hex Hf Hlen Hcall He Hp. unfold com_retry. rewrite range_seq.
  rewrite (wrapper_loop_fails is_Exception func console_print time_sleep
             N d es w w' 0 (Z.to_nat N) []);
    [|done|done|lia|simpl; lia].
  simpl.
  destruct (Z.to_nat N - length es)%nat as [|m] eqn:Hm; [lia|].
  simpl. rewrite Hcall, He.
  destruct (Z.eqb_spec (Z.of_nat (length es)) (N - 1)); [lia|].
  by rewrite Hp.
Qed.

End ComRetryBudget.
(* ===================================================================== *)
(** ** The matcher against what a pattern can match                      *)
(* ===================================================================== *)

Section MatcherSound.
Context `{Runtime} {A : Type}.

Lemma star_sound (a : atom) (g : option str)
    (k : str → option str → option A) (res : A) :
  ∀ s, star a s g k = Some res →
       ∃ w s', s = w ++ s'
               ∧ Forall (λ c, atom_matches a c = true) w
               ∧ k s' g = Some res.
Proof.
  induction s as [|c s IH]; cbn [star].
  - intros Hk. by exists [], [].
  - destruct (atom_matches a c) eqn:Hc; [|intros Hk; by exists [], (c :: s)].
    destruct (star a s g k) as [res'|] eqn:Hs.
    + intros [= ->]. destruct (IH eq_refl) as (w & s' & -> & Hw & Hk).
      exists (c :: w), s'. split; [done|]. split; [by constructor|done].
    + intros Hk. by exists [], (c :: s).
Qed.

(** Whatever the matcher accepts is a split of the text into a part the
    pattern can match and a rest the continuation accepts. *)
Lemma rmatch_sound (r : regex) :
  ∀ (s : str) (g : option str) (k : str → option str → option A) (res : A),
    rmatch r s g k = Some res →
    ∃ w s' g', s = w ++ s' ∧ rsem r w g g' ∧ k s' g' = Some res.
Proof.
  induction r as [|a|r1 IH1 r2 IH2|r1 IH1|a|a|r1 IH1];
    intros s g k res; cbn [rmatch rsem].
  - intros Hk. by exists [], s, g.
  - destruct s as [|c s]; [done|].
    destruct (atom_matches a c) eqn:Hc; [|done].
    intros Hk. exists [c], s, g. split; [done|]. split; [|done]. by exists c.
  - intros Hm. apply IH1 in Hm as (w1 & s1 & g1 & -> & Hr1 & Hm).
    apply IH2 in Hm as (w2 & s2 & g2 & -> & Hr2 & Hk).
    exists (w1 ++ w2), s2, g2. split; [by rewrite app_assoc|].
    split; [|done]. by exists w1, w2, g1.
  - destruct (rmatch r1 s g k) as [res'|] eqn:Hm.
    + intros [= ->]. apply IH1 in Hm as (w & s' & g' & -> & Hr & Hk).
      exists w, s', g'. split; [done|]. split; [by right|done].
    + intros Hk. exists [], s, g. split; [done|]. split; [by left|done].
  - intros (w & s' & -> & Hw & Hk)%star_sound. by exists w, s', g.
  - destruct s as [|c s]; [done|].
    destruct (atom_matches a c) eqn:Hc; [|done].
    intros (w & s' & -> & Hw & Hk)%star_sound.
    exists (c :: w), s', g. split; [done|]. split; [|done].
    split; [done|]. split; [by constructor|done].
  - intros Hm. apply IH1 in Hm as (w & s' & g' & -> & Hr & Hk).
    exists w, s', (Some w). split; [done|]. split; [by exists g'|].
    rewrite length_app in Hk.
    replace (length w + length s' - length s')%nat with (length w) in Hk
      by lia.
    by rewrite take_app_length in Hk.
Qed.

End MatcherSound.

Section SearchSound.
Context `{Runtime}.

Lemma re_match_sound (r : regex) (s : str) (m : Match) :
  re_match r s = Some m →
  ∃ post, s = group0 m ++ post ∧ rsem r (group0 m) None (group1 m).
Proof.
  intros (w & s' & g' & -> & Hr & [= <-])%rmatch_sound. simpl.
  rewrite length_app.
  replace (length w + length s' - length s')%nat with (length w) by lia.
  rewrite take_app_length. by exists s'.
Qed.

(** A match found by [re.search] is a stretch of the text that the
    pattern can match. *)
Lemma re_search_sound (r : regex) (m : Match) :
  ∀ s, re_search r s = Some m →
       ∃ pre post, s = pre ++ group0 m ++ post
                   ∧ rsem r (group0 m) None (group1 m).
Proof.
  induction s as [|c s IH]; cbn [re_search];
    destruct (re_match r _) as [m'|] eqn:Hm; try done.
  - intros [= ->]. apply re_match_sound in Hm as (post & Hs & Hr).
    by exists [], post.
  - intros [= ->]. apply re_match_sound in Hm as (post & Hs & Hr).
    by exists [], post.
  - intros (pre & post & -> & Hr)%IH. by exists (c :: pre), post.
Qed.

Lemma rsem_RLit (l w : str) (g g' : option str) :
  rsem (RLit l) w g g' → w = l ∧ g' = g.
Proof.
  revert w g. induction l as [|c l IH]; intros w g.
  - by intros [-> ->].
  - intros (w1 & w2 & g1 & -> & (c' & -> & Hc & ->) & Hr).
    apply IH in Hr as [-> ->]. simpl in Hc. apply N.eqb_eq in Hc as ->.
    done.
Qed.

(** What a label pattern can match: the label, white space, and a
    non-empty run of the category, which is the group. *)
Lemma rsem_pat_rotulo (rotulo : str) (k : category) (w : str)
    (g' : option str) :
  rsem (pat_rotulo rotulo k) w None g' →
  ∃ ws body,
    w = rotulo ++ ws ++ body
    ∧ Forall (λ c, py_isspace c = true) ws
    ∧ body ≠ []
    ∧ Forall (λ c, in_category k c = true) body
    ∧ g' = Some body.
Proof.
  intros (w1 & w' & g1 & -> & [-> ->]%rsem_RLit
          & w2 & w'' & g2 & -> & [Hws ->]
          & w3 & w4 & g3 & -> & (g4 & (Hne & Hbody & ->) & ->) & [-> ->]).
  exists w2, w3. by rewrite app_nil_r.
Qed.

End SearchSound.

(* ===================================================================== *)
(** ** What [extrair_metricas] extracts is written in the report         *)
(* ===================================================================== *)

Section ExtrairSound.
Context `{Runtime}.

(** The field of a label pattern: "N/A", or a group that stands in the
    text after the label and white space. *)
Lemma campo_rotulo_sound (rotulo : str) (k : category) (laudo : str) :
  from_option (group 1) NA (re_search (pat_rotulo rotulo k) laudo) = NA
  ∨ ∃ pre ws t post,
      from_option (group 1) NA (re_search (pat_rotulo rotulo k) laudo)
      = VStr t
      ∧ laudo = pre ++ rotulo ++ ws ++ t ++ post
      ∧ Forall (λ c, py_isspace c = true) ws
      ∧ t ≠ []
      ∧ Forall (λ c, in_category k c = true) t.
Proof.
  destruct (re_search (pat_rotulo rotulo k) laudo) as [m|] eqn:Hm;
    [|by left].
  right. apply re_search_sound in Hm as (pre & post & -> & Hr).
  apply rsem_pat_rotulo in Hr as (ws & t & Hw & Hws & Hne & Ht & Hg).
  exists pre, ws, t, post. simpl. unfold group. rewrite Hg, Hw.
  by rewrite <- !app_assoc.
Qed.

(** X4. The score is "N/A" or a non-empty run of decimal digits that
    stands in the report right after the label SCORE_DESINFORMACAO: and
    optional white space: never a sign, a fraction or a number the report
    does not contain. *)
Theorem extrair_metricas_score_sound (laudo : str) :
  extrair_metricas laudo !! "score" = Some NA
  ∨ ∃ pre ws t post,
      extrair_metricas laudo !! "score" = Some (VStr t)
      ∧ laudo = pre ++ u "SCORE_DESINFORMACAO:" ++ ws ++ t ++ post
      ∧ Forall (λ c, py_isspace c = true) ws
      ∧ t ≠ []
      ∧ Forall (λ c, py_isdecimal c = true) t.
Proof.
  destruct (extrair_metricas_fields laudo) as (-> & _).
  destruct (campo_rotulo_sound (u "SCORE_DESINFORMACAO:") CatDigit laudo)
    as [Hna|(pre & ws & t & post & Hv & Hrest)].
  - left. f_equal. exact Hna.
  - right. exists pre, ws, t, post. split; [f_equal; exact Hv | exact Hrest].
Qed.

(** X5. The confidence and the verdict are each "N/A" or a non-empty run
    of word characters that stands in the report right after its label
    and optional white space. *)
Theorem extrair_metricas_words_sound (laudo : str) :
  (extrair_metricas laudo !! "confianca" = Some NA
   ∨ ∃ pre ws t post,
       extrair_metricas laudo !! "confianca" = Some (VStr t)
       ∧ laudo = pre ++ u "CONFIANCA_ANALISE:" ++ ws ++ t ++ post
       ∧ Forall (λ c, py_isspace c = true) ws
       ∧ t ≠ []
       ∧ Forall (λ c, in_category CatWord c = true) t)
  ∧ (extrair_metricas laudo !! "veredito" = Some NA
     ∨ ∃ pre ws t post,
         extrair_metricas laudo !! "veredito" = Some (VStr t)
         ∧ laudo = pre ++ u "VEREDITO_CODIGO:" ++ ws ++ t ++ post
         ∧ Forall (λ c, py_isspace c = true) ws
         ∧ t ≠ []
         ∧ Forall (λ c, in_category CatWord c = true) t).
Proof.
  destruct (extrair_metricas_fields laudo) as (_ & -> & -> & _). split.
  - destruct (campo_rotulo_sound (u "CONFIANCA_ANALISE:") CatWord laudo)
      as [Hna|(pre & ws & t & post & Hv & Hrest)].
    + left. f_equal. exact Hna.
    + right. exists pre, ws, t, post.
      split; [f_equal; exact Hv | exact Hrest].
  - destruct (campo_rotulo_sound (u "VEREDITO_CODIGO:") CatWord laudo)
      as [Hna|(pre & ws & t & post & Hv & Hrest)].
    + left. f_equal. exact Hna.
    + right. exists pre, ws, t, post.
      split; [f_equal; exact Hv | exact Hrest].
Qed.

Lemma rsem_opt_star (w : str) (g g' : option str) :
  rsem (ROpt (RLit (u "*"))) w g g' → (w = [] ∨ w = u "*") ∧ g' = g.
Proof. intros [[-> ->]|[-> ->]%rsem_RLit]; auto. Qed.

(** What the pattern of the composite sub-score can match. *)
Lemma rsem_pat_conspir (w : str) (g' : option str) :
  rsem pat_conspir w None g' →
  ∃ ws1 ws2 stars int frac,
    w = u "MÉDIA CONSPIR" ++ ws1 ++ u "|" ++ ws2 ++ stars ++ int ++ frac
        ++ u "/10"
    ∧ g' = Some (int ++ frac)
    ∧ Forall (λ c, py_isspace c = true) ws1
    ∧ Forall (λ c, py_isspace c = true) ws2
    ∧ stars ∈ [[]; u "*"; u "**"]
    ∧ int ≠ []
    ∧ Forall (λ c, py_isdecimal c = true) int
    ∧ (frac = []
       ∨ ∃ ds, frac = u "." ++ ds ∧ ds ≠ []
               ∧ Forall (λ c, py_isdecimal c = true) ds).
Proof.
  intros (w1 & w' & g1 & -> & [-> ->]%rsem_RLit
          & ws1 & w'' & g2 & -> & [Hws1 ->]
          & w3 & w4 & g3 & -> & [-> ->]%rsem_RLit
          & ws2 & w5 & g4 & -> & [Hws2 ->]
          & s1 & w6 & g5 & -> & [Hs1 ->]%rsem_opt_star
          & s2 & w7 & g6 & -> & [Hs2 ->]%rsem_opt_star
          & num & w8 & g7 & -> & (g8 & Hnum & ->)
          & w9 & w10 & g9 & -> & [-> ->]%rsem_RLit & [-> ->]).
  destruct Hnum as (int & frac & g10 & -> & (Hne & Hint & ->) & Hfrac).
  exists ws1, ws2, (s1 ++ s2), int, frac.
  split; [by rewrite app_nil_r, <- !app_assoc|]. split; [done|].
  split; [done|]. split; [done|].
  split; [destruct Hs1 as [->| ->], Hs2 as [->| ->];
          rewrite !elem_of_cons; auto|].
  split; [done|]. split; [done|].
  destruct Hfrac as [[-> _]|(p & ds & g11 & -> & [-> ->]%rsem_RLit
                              & Hdne & Hds & _)]; [by left|].
  right. by exists ds.
Qed.

(** X6. The composite sub-score is "N/A" or [n/10] where the report has,
    in this order, the label MÉDIA CONSPIR, optional white space, the
    column bar, optional white space, at most two asterisks, the number
    [n] (digits, with an optional point and digits) and /10: nothing may
    stand between the label and the bar but white space. *)
Theorem extrair_metricas_conspir_sound (laudo : str) :
  extrair_metricas laudo !! "conspir_media" = Some NA
  ∨ ∃ pre ws1 ws2 stars int frac post,
      extrair_metricas laudo !! "conspir_media"
      = Some (VStr (int ++ frac ++ u "/10"))
      ∧ laudo = pre ++ u "MÉDIA CONSPIR" ++ ws1 ++ u "|" ++ ws2 ++ stars
                ++ int ++ frac ++ u "/10" ++ post
      ∧ Forall (λ c, py_isspace c = true) ws1
      ∧ Forall (λ c, py_isspace c = true) ws2
      ∧ stars ∈ [[]; u "*"; u "**"]
      ∧ int ≠ []
      ∧ Forall (λ c, py_isdecimal c = true) int
      ∧ (frac = []
         ∨ ∃ ds, frac = u "." ++ ds ∧ ds ≠ []
                 ∧ Forall (λ c, py_isdecimal c = true) ds).
Proof.
  destruct (extrair_metricas_fields laudo) as (_ & _ & _ & ->).
  destruct (re_search pat_conspir laudo) as [m|] eqn:Hm; [|by left].
  right. apply re_search_sound in Hm as (pre & post & -> & Hr).
  apply rsem_pat_conspir in Hr
    as (ws1 & ws2 & stars & int & frac & Hw & Hg & Hrest).
  exists pre, ws1, ws2, stars, int, frac, post. simpl. unfold group.
  rewrite Hg, Hw. simpl format_value.
  split; [by rewrite <- app_assoc|]. split; [|exact Hrest].
  by rewrite <- !app_assoc.
Qed.

End ExtrairSound.

(* ===================================================================== *)
(** ** What stands in the report is extracted                            *)
(* ===================================================================== *)

Section MatcherGreedy.
Context `{Runtime} {A : Type}.

Lemma rmatch_RLit (l s : str) (g : option str)
    (k : str → option str → option A) :
  rmatch (RLit l) (l ++ s) g k = k s g.
Proof.
  induction l as [|c l IH]; [done|].
  change (RLit (c :: l)) with (RSeq (RAtom (AChr c)) (RLit l)).
  cbn [app rmatch atom_matches]. by rewrite N.eqb_refl.
Qed.

(** A run of matching characters before a character that does not match
    is taken whole, when what follows is accepted. *)
Lemma star_greedy (a : atom) (ws s : str) (g : option str)
    (k : str → option str → option A) (res : A) :
  Forall (λ c, atom_matches a c = true) ws →
  match s with c :: _ => atom_matches a c = false | [] => True end →
  k s g = Some res →
  star a (ws ++ s) g k = Some res.
Proof.
  intros Hws Hs Hk. induction Hws as [|c ws Hc _ IH].
  - destruct s as [|c s]; [done|]. cbn [app star]. by rewrite Hs.
  - cbn [app star]. by rewrite Hc, IH.
Qed.

End MatcherGreedy.

Section ExtrairFound.
Context `{Runtime}.

Lemma take_app_minus (x rest : str) :
  take (length (x ++ rest) - length rest) (x ++ rest) = x.
Proof.
  rewrite length_app.
  replace (length x + length rest - length rest)%nat with (length x) by lia.
  apply take_app_length.
Qed.

Lemma re_search_here (r : regex) (s : str) (m : Match) :
  re_match r s = Some m → re_search r s = Some m.
Proof. intros Hm. destruct s; cbn [re_search]; by rewrite Hm. Qed.

(** [re.search] goes past the positions where nothing matches. *)
Lemma re_search_skip (r : regex) (pre s : str) :
  (∀ i, (i < length pre)%nat → re_match r (drop i (pre ++ s)) = None) →
  re_search r (pre ++ s) = re_search r s.
Proof.
  induction pre as [|c pre IH]; intros Hpre; [done|].
  cbn [app re_search].
  pose proof (Hpre 0%nat ltac:(simpl; lia)) as H0. cbn [drop app] in H0.
  rewrite H0.
  apply IH. intros i Hi. apply (Hpre (S i)). simpl. lia.
Qed.

(** A label pattern matches only where the label stands. *)
Lemma re_match_rotulo_prefix (rotulo : str) (k : category) (s : str)
    (m : Match) :
  re_match (pat_rotulo rotulo k) s = Some m → rotulo `prefix_of` s.
Proof.
  intros (post & Hs & Hr)%re_match_sound.
  apply rsem_pat_rotulo in Hr as (ws & body & Hw & _).
  rewrite Hs, Hw. exists (ws ++ body ++ post). by rewrite <- !app_assoc.
Qed.

(** Where the label stands, followed by white space and a run of the
    category, the pattern matches and the group is the whole run. *)
Lemma re_match_rotulo (rotulo : str) (k : category) (ws body rest : str) :
  Forall (λ c, py_isspace c = true) ws →
  body ≠ [] →
  Forall (λ c, in_category k c = true) body →
  starts_clean body →
  not_starting k rest →
  re_match (pat_rotulo rotulo k) (rotulo ++ ws ++ body ++ rest)
  = Some {| group0 := rotulo ++ ws ++ body; group1 := Some body |}.
Proof.
  intros Hws Hne Hbody Hclean Hrest.
  destruct body as [|c body]; [done|].
  apply Forall_cons in Hbody as [Hc Hbody].
  unfold re_match, pat_rotulo. cbn [RCat foldr rmatch].
  rewrite rmatch_RLit.
  apply star_greedy; [done|done|].
  cbn [app atom_matches]. rewrite Hc.
  apply star_greedy; [done|by destruct rest|].
  f_equal. f_equal.
  - change (rotulo ++ ws ++ c :: body ++ rest)
      with (rotulo ++ ws ++ (c :: body) ++ rest).
    rewrite !(app_assoc _ _ rest). apply take_app_minus.
  - f_equal. apply (take_app_minus (c :: body) rest).
Qed.

(** The field of a label pattern is the run after the first place where
    the label stands, when white space and such a run follow it. *)
Lemma campo_rotulo_found (rotulo : str) (k : category)
    (pre ws body rest : str) :
  (∀ i, (i < length pre)%nat →
        ¬ rotulo `prefix_of` drop i (pre ++ rotulo ++ ws ++ body ++ rest)) →
  Forall (λ c, py_isspace c = true) ws →
  body ≠ [] →
  Forall (λ c, in_category k c = true) body →
  starts_clean body →
  not_starting k rest →
  from_option (group 1) NA
    (re_search (pat_rotulo rotulo k) (pre ++ rotulo ++ ws ++ body ++ rest))
  = VStr body.
Proof.
  intros Hfirst Hws Hne Hbody Hclean Hrest.
  rewrite re_search_skip.
  - by rewrite (re_search_here _ _ _
                  (re_match_rotulo rotulo k ws body rest
                     Hws Hne Hbody Hclean Hrest)).
  - intros i Hi.
    destruct (re_match (pat_rotulo rotulo k) _) as [m|] eqn:Hm; [|done].
    apply re_match_rotulo_prefix in Hm. by apply Hfirst in Hm.
Qed.

(** X7. When the first place where SCORE_DESINFORMACAO: stands in the
    report is followed by optional white space and ASCII digits, the score
    is the whole run of digits, up to the first character that is no
    decimal digit; whatever else the report holds does not matter. *)
Theorem extrair_metricas_score_found (pre ws ds rest : str) :
  (∀ i, (i < length pre)%nat →
        ¬ u "SCORE_DESINFORMACAO:"
          `prefix_of` drop i (pre ++ u "SCORE_DESINFORMACAO:" ++ ws ++ ds
                              ++ rest)) →
  Forall (λ c, py_isspace c = true) ws →
  ds ≠ [] →
  Forall (λ c, between 48 57 c = true) ds →
  not_starting CatDigit rest →
  extrair_metricas (pre ++ u "SCORE_DESINFORMACAO:" ++ ws ++ ds ++ rest)
    !! "score"
  = Some (VStr ds).
Proof.
  intros Hfirst Hws Hne Hds Hrest.
  destruct (extrair_metricas_fields
              (pre ++ u "SCORE_DESINFORMACAO:" ++ ws ++ ds ++ rest))
    as (-> & _).
  f_equal.
  apply (campo_rotulo_found (u "SCORE_DESINFORMACAO:") CatDigit);
    try done.
  - eapply Forall_impl; [exact Hds|]. intros c Hc. simpl.
    unfold py_isdecimal. by destruct (digit_facts c Hc) as (_ & _ & ->).
  - destruct ds as [|c ds]; [done|]. apply Forall_cons in Hds as [Hc _].
    simpl. unfold py_isspace, between in *.
    apply andb_true_iff in Hc as [Hlo%N.leb_le Hhi%N.leb_le].
    repeat match goal with
           | |- context [(?a <=? c)] => destruct (N.leb_spec a c); try lia
           | |- context [(c <=? ?a)] => destruct (N.leb_spec c a); try lia
           | |- context [(c =? ?a)] => destruct (N.eqb_spec c a); try lia
           end; done.
Qed.

(** X8. When the first place where VEREDITO_CODIGO: (or
    CONFIANCA_ANALISE:) stands in the report is followed by optional
    white space and word characters, the verdict (or the confidence) is
    the whole run of word characters, written as it stands: case and
    accents are kept, and nothing checks it against the closed list of
    codes. *)
Theorem extrair_metricas_word_found (campo : string) (rotulo : str)
    (pre ws t rest : str) :
  (campo, rotulo) ∈ [("confianca"%string, u "CONFIANCA_ANALISE:");
                     ("veredito"%string, u "VEREDITO_CODIGO:")] →
  (∀ i, (i < length pre)%nat →
        ¬ rotulo `prefix_of` drop i (pre ++ rotulo ++ ws ++ t ++ rest)) →
  Forall (λ c, py_isspace c = true) ws →
  t ≠ [] →
  Forall (λ c, in_category CatWord c = true) t →
  starts_clean t →
  not_starting CatWord rest →
  extrair_metricas (pre ++ rotulo ++ ws ++ t ++ rest) !! campo
  = Some (VStr t).
Proof.
  intros Hcampo Hfirst Hws Hne Ht Hclean Hrest.
  destruct (extrair_metricas_fields (pre ++ rotulo ++ ws ++ t ++ rest))
    as (_ & Hc & Hv & _).
  apply elem_of_cons in Hcampo as [[= -> ->]|Hcampo];
    [|apply elem_of_cons in Hcampo as [[= -> ->]|Hcampo];
      [|by apply elem_of_nil in Hcampo]].
  - rewrite Hc. f_equal.
    by apply (campo_rotulo_found (u "CONFIANCA_ANALISE:") CatWord).
  - rewrite Hv. f_equal.
    by apply (campo_rotulo_found (u "VEREDITO_CODIGO:") CatWord).
Qed.

End ExtrairFound.

Section MatcherOptional.
Context `{Runtime} {A : Type}.

Lemma rmatch_ROpt (r : regex) (s : str) (g : option str)
    (k : str → option str → option A) :
  rmatch (ROpt r) s g k
  = match rmatch r s g k with Some res => Some res | None => k s g end.
Proof. reflexivity. Qed.

Lemma rmatch_RSeq (r1 r2 : regex) (s : str) (g : option str)
    (k : str → option str → option A) :
  rmatch (RSeq r1 r2) s g k = rmatch r1 s g (λ s' g', rmatch r2 s' g' k).
Proof. reflexivity. Qed.

Lemma rmatch_RStar (a : atom) (s : str) (g : option str)
    (k : str → option str → option A) :
  rmatch (RStar a) s g k = star a s g k.
Proof. reflexivity. Qed.

Lemma rmatch_RGroup (r : regex) (s : str) (g : option str)
    (k : str → option str → option A) :
  rmatch (RGroup r) s g k
  = rmatch r s g (λ s' _, k s' (Some (take (length s - length s') s))).
Proof. reflexivity. Qed.

(** One or more matching characters before one that does not match. *)
Lemma plus_greedy (a : atom) (body s : str) (g : option str)
    (k : str → option str → option A) (res : A) :
  body ≠ [] →
  Forall (λ c, atom_matches a c = true) body →
  match s with c :: _ => atom_matches a c = false | [] => True end →
  k s g = Some res →
  rmatch (RPlus a) (body ++ s) g k = Some res.
Proof.
  intros Hne Hbody Hs Hk. destruct body as [|c body]; [done|].
  apply Forall_cons in Hbody as [Hc Hbody].
  cbn [app rmatch]. rewrite Hc. by apply star_greedy.
Qed.

(** An optional asterisk: there and taken, or not there and skipped. *)
Lemma opt_asterisk (star1 s : str) (g : option str)
    (k : str → option str → option A) (res : A) :
  star1 = u "*" ∨ (star1 = [] ∧ head s ≠ Some 42) →
  k s g = Some res →
  rmatch (ROpt (RLit (u "*"))) (star1 ++ s) g k = Some res.
Proof.
  intros [->|[-> Hs]] Hk; cbn [rmatch].
  - by rewrite rmatch_RLit, Hk.
  - change (RLit (u "*")) with (RSeq (RAtom (AChr 42)) REps).
    cbn [app rmatch atom_matches].
    destruct s as [|c s]; [done|].
    destruct (N.eqb_spec c 42) as [->|_]; [done|]. done.
Qed.

End MatcherOptional.

Section ConspirFound.
Context `{Runtime}.

Lemma ascii_digit_decimal (ds : str) :
  Forall (λ c, between 48 57 c = true) ds →
  Forall (λ c, atom_matches (ACat CatDigit) c = true) ds.
Proof.
  intros Hds. eapply Forall_impl; [exact Hds|]. intros c Hc. simpl.
  unfold py_isdecimal. by destruct (digit_facts c Hc) as (_ & _ & ->).
Qed.

(** The optional fraction: there and taken, or not there and skipped. *)
Lemma opt_fraction {A : Type} (frac s : str) (g : option str)
    (k : str → option str → option A) (res : A) :
  (frac = [] ∧ head s ≠ Some 46)
  ∨ (∃ ds, frac = u "." ++ ds ∧ ds ≠ []
           ∧ Forall (λ c, between 48 57 c = true) ds) →
  match s with c :: _ => py_isdecimal c = false | [] => True end →
  k s g = Some res →
  rmatch (ROpt (RSeq (RLit (u ".")) (RPlus (ACat CatDigit)))) (frac ++ s) g k
  = Some res.
Proof.
  intros [[-> Hs]|(ds & -> & Hne & Hds)] Hnd Hk.
  - change (RLit (u ".")) with (RSeq (RAtom (AChr 46)) REps).
    cbn [app rmatch atom_matches].
    destruct s as [|c s]; [done|].
    destruct (N.eqb_spec c 46) as [->|_]; [done|]. done.
  - rewrite rmatch_ROpt, rmatch_RSeq, <- app_assoc, rmatch_RLit.
    rewrite (plus_greedy _ ds s g k res); try done.
    by apply ascii_digit_decimal.
Qed.

(** Where the label stands, followed as the pattern wants, the pattern
    matches and the group is the number. *)
Lemma re_match_conspir (ws1 ws2 stars int frac rest : str) :
  Forall (λ c, py_isspace c = true) ws1 →
  Forall (λ c, py_isspace c = true) ws2 →
  stars ∈ [[]; u "*"; u "**"] →
  int ≠ [] →
  Forall (λ c, between 48 57 c = true) int →
  (frac = []
   ∨ ∃ ds, frac = u "." ++ ds ∧ ds ≠ []
           ∧ Forall (λ c, between 48 57 c = true) ds) →
  ∃ m, re_match pat_conspir
         (u "MÉDIA CONSPIR" ++ ws1 ++ u "|" ++ ws2 ++ stars ++ int ++ frac
          ++ u "/10" ++ rest) = Some m
       ∧ group1 m = Some (int ++ frac).
Proof.
  intros Hws1 Hws2 Hstars Hne Hint Hfrac.
  destruct int as [|d int]; [done|].
  pose proof (Forall_inv Hint) as Hd.
  destruct (digit_facts d Hd) as (Hrange & _ & Hdec).
  assert (py_isspace d = false) as Hdsp.
  { unfold py_isspace, between.
    repeat match goal with
           | |- context [(?a <=? d)] => destruct (N.leb_spec a d); try lia
           | |- context [(d <=? ?a)] => destruct (N.leb_spec d a); try lia
           | |- context [(d =? ?a)] => destruct (N.eqb_spec d a); try lia
           end; done. }
  assert (∃ s1 s2, stars = s1 ++ s2
                   ∧ (s1 = u "*" ∨ (s1 = [] ∧ s2 = []))
                   ∧ (s2 = u "*" ∨ s2 = [])) as (s1 & s2 & -> & Hs1 & Hs2).
  { repeat (apply elem_of_cons in Hstars as [->|Hstars]).
    - exists [], []. auto.
    - exists (u "*"), []. auto.
    - exists (u "*"), (u "*"). auto.
    - by apply elem_of_nil in Hstars. }
  eexists. unfold re_match, pat_conspir. cbn [RCat foldr].
  rewrite rmatch_RSeq, rmatch_RLit, rmatch_RSeq, rmatch_RStar.
  split.
  - apply star_greedy; [done|done|].
    rewrite rmatch_RSeq, rmatch_RLit, rmatch_RSeq, rmatch_RStar.
    apply star_greedy; [done| |].
    { destruct Hs1 as [->|[-> ->]]; [done|]. exact Hdsp. }
    rewrite <- app_assoc, rmatch_RSeq.
    apply opt_asterisk.
    { destruct Hs1 as [->|[-> ->]]; [by left|right].
      split; [done|]. simpl. intros [= ->]. lia. }
    rewrite rmatch_RSeq.
    apply opt_asterisk.
    { destruct Hs2 as [->| ->]; [by left|right].
      split; [done|]. simpl. intros [= ->]. lia. }
    rewrite rmatch_RSeq, rmatch_RGroup, rmatch_RSeq.
    apply plus_greedy; [done|by apply ascii_digit_decimal| |].
    { destruct Hfrac as [->|(ds & -> & _)]; done. }
    apply opt_fraction; [|done|].
    { destruct Hfrac as [->|(ds & -> & Hds)]; [left|right; by exists ds].
      done. }
    rewrite rmatch_RSeq, rmatch_RLit. cbn [rmatch]. reflexivity.
  - cbn [group1]. f_equal.
    rewrite (app_assoc (d :: int) frac).
    apply take_app_minus.
Qed.

Lemma re_match_conspir_prefix (s : str) (m : Match) :
  re_match pat_conspir s = Some m → u "MÉDIA CONSPIR" `prefix_of` s.
Proof.
  intros (post & Hs & Hr)%re_match_sound.
  apply rsem_pat_conspir in Hr
    as (ws1 & ws2 & stars & int & frac & Hw & _).
  rewrite Hs, Hw. eexists. by rewrite <- !app_assoc.
Qed.

(** X9. When the first place where MÉDIA CONSPIR stands in the report is
    followed by optional white space, the column bar, optional white
    space, at most two asterisks and a number of ASCII digits (with an
    optional point and digits) over 10, the composite sub-score is that
    number over 10. *)
Theorem extrair_metricas_conspir_first
    (pre ws1 ws2 stars int frac rest : str) :
  (∀ i, (i < length pre)%nat →
        ¬ u "MÉDIA CONSPIR"
          `prefix_of` drop i (pre ++ u "MÉDIA CONSPIR" ++ ws1 ++ u "|" ++ ws2
                              ++ stars ++ int ++ frac ++ u "/10" ++ rest)) →
  Forall (λ c, py_isspace c = true) ws1 →
  Forall (λ c, py_isspace c = true) ws2 →
  stars ∈ [[]; u "*"; u "**"] →
  int ≠ [] →
  Forall (λ c, between 48 57 c = true) int →
  (frac = []
   ∨ ∃ ds, frac = u "." ++ ds ∧ ds ≠ []
           ∧ Forall (λ c, between 48 57 c = true) ds) →
  extrair_metricas
    (pre ++ u "MÉDIA CONSPIR" ++ ws1 ++ u "|" ++ ws2 ++ stars ++ int ++ frac
     ++ u "/10" ++ rest) !! "conspir_media"
  = Some (VStr (int ++ frac ++ u "/10")).
Proof.
  intros Hfirst Hws1 Hws2 Hstars Hne Hint Hfrac.
  destruct (extrair_metricas_fields
    (pre ++ u "MÉDIA CONSPIR" ++ ws1 ++ u "|" ++ ws2 ++ stars ++ int ++ frac
     ++ u "/10" ++ rest)) as (_ & _ & _ & ->).
  rewrite re_search_skip.
  - destruct (re_match_conspir ws1 ws2 stars int frac rest
                Hws1 Hws2 Hstars Hne Hint Hfrac) as (m & Hm & Hg).
    rewrite (re_search_here _ _ _ Hm). simpl. unfold group. rewrite Hg.
    simpl. by rewrite <- app_assoc.
  - intros i Hi.
    destruct (re_match pat_conspir _) as [m|] eqn:Hm; [|done].
    apply re_match_conspir_prefix in Hm. by apply Hfirst in Hm.
Qed.

End ConspirFound.

(* ===================================================================== *)
(** ** The folder name: its alphabet, its empty case, the paths          *)
(* ===================================================================== *)

Section FolderName.
Context `{Runtime}.

Lemma seguro_cases (c : N) :
  seguro c →
  in_category CatWord c = true ∨ py_isspace c = true ∨ c = 45.
Proof.
  unfold seguro. cbn [atom_matches pat_inseguro existsb in_item].
  intros Hc. apply negb_false_iff in Hc.
  apply orb_true_iff in Hc as [Hc|Hc]; [by left|].
  apply orb_true_iff in Hc as [Hc|Hc]; [by right; left|].
  apply orb_true_iff in Hc as [Hc|Hc]; [|done].
  right. right. by apply N.eqb_eq.
Qed.

(** X10. Every character of a folder name is a word character, a hyphen
    or a white-space character other than the space; it is never the
    space, a slash, a backslash, a point, a colon, an asterisk, a question
    mark, a double quote, an angle bracket, a bar or the null
    character. *)
Theorem sanitizar_nome_alphabet (nome : str) (c : N) :
  c ∈ sanitizar_nome nome →
  (in_category CatWord c = true ∨ py_isspace c = true ∨ c = 45)
  ∧ c ∉ [32; 47; 92; 46; 58; 42; 63; 34; 60; 62; 124; 0].
Proof.
  intros Hc.
  destruct (sanitizar_nome_shape nome) as (Hseg & Hsp & _).
  rewrite Forall_forall in Hseg, Hsp.
  specialize (Hseg c Hc). specialize (Hsp c Hc).
  split; [by apply seguro_cases|].
  intros Hbad.
  repeat (apply elem_of_cons in Hbad as [->|Hbad]; [done|]).
  by apply elem_of_nil in Hbad.
Qed.

Lemma sanitizar_nome_alphabet_aux (nome : str) (c : N) :
  c ∈ sanitizar_nome nome → seguro c.
Proof.
  destruct (sanitizar_nome_shape nome) as (Hseg & _).
  rewrite Forall_forall in Hseg. apply Hseg.
Qed.

Lemma lstrip_all_space (s : str) :
  Forall (λ c, py_isspace c = true) s → lstrip s = [].
Proof. induction 1 as [|c s Hc _ IH]; [done|]. simpl. by rewrite Hc. Qed.

Lemma re_sub1_only_space (s : str) :
  Forall (λ c, atom_matches pat_inseguro c = true ∨ py_isspace c = true) s →
  Forall (λ c, py_isspace c = true) (re_sub1 pat_inseguro [] s).
Proof.
  unfold re_sub1. induction 1 as [|c s Hc _ IH]; [done|].
  cbn [flat_map].
  destruct (atom_matches pat_inseguro c) eqn:Hm; [done|].
  destruct Hc as [Hc|Hc]; [done|]. by constructor.
Qed.

(** X11. A claim made only of characters that are removed and of white
    space (a claim of punctuation, say) has the empty folder name. *)
Theorem sanitizar_nome_nothing_safe (nome : str) :
  Forall (λ c, atom_matches pat_inseguro c = true ∨ py_isspace c = true)
    nome →
  sanitizar_nome nome = [].
Proof.
  intros Hn. unfold sanitizar_nome, strip.
  by rewrite (lstrip_all_space _ (re_sub1_only_space nome Hn)).
Qed.

Lemma sanitizar_nome_no_slash (nome : str) :
  head (sanitizar_nome nome) ≠ Some 47 ∧ last (sanitizar_nome nome) ≠ Some 47.
Proof.
  destruct (sanitizar_nome_shape nome) as (Hseg & _).
  rewrite Forall_forall in Hseg. split; intros Hh.
  - apply head_Some_elem_of, Hseg in Hh. done.
  - apply last_Some_elem_of, Hseg in Hh. done.
Qed.

Lemma os_path_join_relative (a b : str) :
  a ≠ [] → last a ≠ Some 47 → head b ≠ Some 47 →
  os_path_join a b = a ++ u "/" ++ b.
Proof.
  intros Ha Hl Hb. unfold os_path_join.
  rewrite (bool_decide_eq_false_2 _ Hb), (bool_decide_eq_false_2 _ Ha),
    (bool_decide_eq_false_2 _ Hl). done.
Qed.

(** X12. With a reports folder written without a final slash (on a POSIX
    system), the three files share their base name, differ in their
    extension only, and stand in the folder named after the claim, a
    direct child of the reports folder; when that name is empty they
    stand in the reports folder itself. No claim can lead them
    elsewhere. *)
Theorem caminhos_do_laudo_inside (config : Config) (fato timestamp : str) :
  pasta_relatorios config ≠ [] →
  last (pasta_relatorios config) ≠ Some 47 →
  let pasta :=
    pasta_relatorios config ++ u "/"
    ++ (if bool_decide (sanitizar_nome fato = []) then []
        else sanitizar_nome fato ++ u "/") in
  (47 ∉ sanitizar_nome fato)
  ∧ (sanitizar_nome fato ∉ [u "."; u ".."])
  ∧ caminhos_do_laudo config fato timestamp
    = (pasta ++ u "laudo_pericial_" ++ timestamp ++ u ".md",
       pasta ++ u "laudo_pericial_" ++ timestamp ++ u ".html",
       pasta ++ u "laudo_pericial_" ++ timestamp ++ u ".pdf").
Proof.
  intros Hbase Hlast pasta.
  assert (47 ∉ sanitizar_nome fato) as Hslash.
  { intros Hc%sanitizar_nome_alphabet_aux. done. }
  split; [done|]. split.
  - intros Hdot.
    assert (46 ∈ sanitizar_nome fato) as Hc.
    { repeat (apply elem_of_cons in Hdot as [->|Hdot]; [set_solver|]).
      by apply elem_of_nil in Hdot. }
    apply sanitizar_nome_alphabet_aux in Hc. done.
  - destruct (sanitizar_nome_no_slash fato) as [Hh Hl].
    unfold caminhos_do_laudo, pasta_do_caso.
    rewrite (os_path_join_relative _ (sanitizar_nome fato)) by done.
    unfold pasta. case_bool_decide as Hname.
    + rewrite Hname, !app_nil_r. unfold os_path_join.
      rewrite !(bool_decide_eq_false_2 (head _ = Some 47)) by done.
      change (u "/") with [47].
      rewrite !(bool_decide_eq_true_2 (last _ = Some 47))
        by by rewrite last_snoc.
      rewrite !orb_true_r. by rewrite <- !app_assoc.
    + assert (last (pasta_relatorios config ++ u "/" ++ sanitizar_nome fato)
              ≠ Some 47) as Hl'.
      { rewrite !last_app.
        destruct (last (sanitizar_nome fato)) eqn:Hls; [done|].
        by apply last_None in Hls. }
      rewrite !os_path_join_relative; try done;
        try (by destruct (pasta_relatorios config)).
      by rewrite <- !app_assoc.
Qed.

End FolderName.

(* ===================================================================== *)
(** ** The score on the page and on the console                          *)
(* ===================================================================== *)

Section ScoreColour.
Context `{Runtime}.


(** X14. The severity never goes down as the score goes up: of two
    strings that [int()] accepts, the one with the larger number is put
    in the same band or in a later one. *)
Theorem classificar_score_monotone (s1 s2 : str) (n1 n2 : Z) :
  py_int s1 = Some n1 → py_int s2 = Some n2 → (n1 ≤ n2)%Z →
  ∃ k1 k2,
    classificar_score s1 = banda k1 ∧ classificar_score s2 = banda k2
    ∧ (1 ≤ k1 ≤ k2)%nat ∧ (k2 ≤ 5)%nat.
Proof.
  intros H1 H2 Hle. exists (banda_de n1), (banda_de n2).
  split; [by apply classificar_score_int|].
  split; [by apply classificar_score_int|].
  unfold banda_de.
  destruct (Z.leb_spec n1 20), (Z.leb_spec n1 40), (Z.leb_spec n1 60),
    (Z.leb_spec n1 80), (Z.leb_spec n2 20), (Z.leb_spec n2 40),
    (Z.leb_spec n2 60), (Z.leb_spec n2 80); lia.
Qed.

End ScoreColour.

(* ===================================================================== *)
(** ** [carregar_config]                                                 *)
(* ===================================================================== *)

Lemma strip_nil (s : str) :
  strip s = [] ↔ Forall (λ c, py_isspace c = true) s.
Proof.
  split.
  - intros Hs. unfold strip in Hs.
    destruct (rstrip_split (lstrip s)) as (ws & Hl & Hws).
    rewrite Hs in Hl. simpl in Hl.
    pose proof (lstrip_starts_clean s) as Hc.
    destruct (lstrip_split s) as (ws' & Hs' & Hws').
    destruct (lstrip s) as [|c t] eqn:Hls.
    + rewrite Hs', app_nil_r. exact Hws'.
    + subst ws. apply Forall_cons in Hws as [Hsp _]. simpl in Hc.
      congruence.
  - intros Hs. unfold strip. induction Hs as [|c s Hc _ IH]; [done|].
    simpl. by rewrite Hc.
Qed.

(** X15. The configuration is loaded exactly when both keys hold
    something else than white space: a variable that is not set, empty or
    blank raises the configuration error. The keys are kept without the
    white space around them, and the other settings are the defaults:
    12 results, 3 retry attempts, temperature 0 and the folder
    laudos_periciais. *)
Theorem carregar_config_keys (environ : gmap string str) :
  let g := getenv environ "GROQ_API_KEY" in
  let t := getenv environ "TAVILY_API_KEY" in
  (Forall (λ c, py_isspace c = true) g ∨ Forall (λ c, py_isspace c = true) t →
   carregar_config environ
   = inl (u "APIs GROQ_API_KEY ou TAVILY_API_KEY não configuradas."))
  ∧ (¬ Forall (λ c, py_isspace c = true) g →
     ¬ Forall (λ c, py_isspace c = true) t →
     ∃ cfg, carregar_config environ = inr cfg
            ∧ groq_key cfg = strip g ∧ tavily_key cfg = strip t
            ∧ groq_key cfg ≠ [] ∧ tavily_key cfg ≠ []
            ∧ starts_clean (groq_key cfg) ∧ starts_clean (tavily_key cfg)
            ∧ (∀ c, last (groq_key cfg) = Some c → py_isspace c = false)
            ∧ (∀ c, last (tavily_key cfg) = Some c → py_isspace c = false)
            ∧ max_resultados cfg = 12%Z
            ∧ max_tentativas_retry cfg = 3%Z
            ∧ temperatura cfg = 0%Q
            ∧ pasta_relatorios cfg = u "laudos_periciais").
Proof.
  intros g t. unfold carregar_config. fold g t. split.
  - intros [Hg%strip_nil|Ht%strip_nil].
    + by rewrite Hg.
    + rewrite Ht. by rewrite orb_true_r.
  - intros Hg Ht.
    assert (strip g ≠ []) as Hg' by by rewrite strip_nil.
    assert (strip t ≠ []) as Ht' by by rewrite strip_nil.
    rewrite (bool_decide_eq_false_2 _ Hg'), (bool_decide_eq_false_2 _ Ht').
    eexists. split; [reflexivity|]. simpl.
    repeat split; try done;
      try (apply rstrip_starts_clean, lstrip_starts_clean);
      apply rstrip_last.
Qed.

(* ===================================================================== *)
(** ** The evidence in the prompt                                        *)
(* ===================================================================== *)

Lemma blocos_fold (rs : list item) :
  ∀ (start : Z) (linhas : list str),
    fold_left
      (λ (linhas : list str) '(i, r),
         linhas ++
         [cat [u "--- FONTE ["; str_of_int i; u "] ---"];
          cat [u "URL: "; get r "url" (u "N/D")];
          cat [u "Título: "; get r "title" (u "N/D")];
          cat [u "Data: "; get r "published_date" (u "N/D")];
          cat [u "Conteúdo relevante: ";
               take 800 (get r "content" (u "N/D"))];
          []])
      (enumerate start rs) linhas
    = linhas ++ concat (imap (λ k r, bloco_fonte (Z.of_nat k + start) r) rs).
Proof.
  induction rs as [|r rs IH]; intros start linhas.
  - by rewrite app_nil_r.
  - cbn [enumerate fold_left imap concat]. rewrite IH, <- app_assoc.
    f_equal. f_equal. f_equal. apply imap_ext. intros k r' _. simpl.
    f_equal. lia.
Qed.

Lemma blocos_lookup (rs : list item) :
  ∀ (start : Z) (k j : nat) (r : item),
    rs !! k = Some r → (j < 6)%nat →
    concat (imap (λ k r, bloco_fonte (Z.of_nat k + start) r) rs)
      !! (6 * k + j)%nat
    = bloco_fonte (Z.of_nat k + start) r !! j.
Proof.
  induction rs as [|r0 rs IH]; intros start k j r Hk Hj; [done|].
  cbn [imap concat]. destruct k as [|k].
  - injection Hk as ->. by rewrite lookup_app_l by (simpl; lia).
  - rewrite lookup_app_r by (simpl; lia).
    replace (6 * S k + j - length (bloco_fonte (Z.of_nat 0 + start) r0))%nat
      with (6 * k + j)%nat by (simpl; lia).
    rewrite (imap_ext _ (λ k r, bloco_fonte (Z.of_nat k + (start + 1)) r))
      by (intros; simpl; f_equal; lia).
    rewrite (IH (start + 1)%Z k j r Hk Hj). f_equal. f_equal. lia.
Qed.

Lemma blocos_length (rs : list item) (start : Z) :
  length (concat (imap (λ k r, bloco_fonte (Z.of_nat k + start) r) rs))
  = (6 * length rs)%nat.
Proof.
  revert start. induction rs as [|r rs IH]; intros start; [done|].
  cbn [imap concat]. rewrite length_app.
  rewrite (imap_ext _ (λ k r, bloco_fonte (Z.of_nat k + (start + 1)) r))
    by (intros; simpl; f_equal; lia).
  rewrite IH. simpl. lia.
Qed.

Lemma join_snoc (sep y : str) (xs : list str) :
  xs ≠ [] → join sep (xs ++ [y]) = join sep xs ++ sep ++ y.
Proof.
  induction xs as [|x xs IH]; [done|]. intros _.
  destruct xs as [|x' xs]; [done|].
  change (join sep ((x :: x' :: xs) ++ [y]))
    with (x ++ sep ++ join sep ((x' :: xs) ++ [y])).
  rewrite IH by done.
  change (join sep (x :: x' :: xs)) with (x ++ sep ++ join sep (x' :: xs)).
  by rewrite <- !app_assoc.
Qed.

Lemma split_join (sep : str) (ls : list str) :
  sep ≠ [] →
  ∀ (l cur : str),
    livre sep l = true →
    Forall (λ l, livre sep l = true) ls →
    split_aux sep (join sep (l :: ls)) cur 0 = (cur ++ l) :: ls.
Proof.
  intros Hsep. induction ls as [|l' ls IH]; intros l cur Hl Hls.
  - cbn [join]. rewrite <- (app_nil_r l) at 1.
    by rewrite split_aux_livre.
  - apply Forall_cons in Hls as [Hl' Hls].
    change (join sep (l :: l' :: ls)) with (l ++ sep ++ join sep (l' :: ls)).
    rewrite split_aux_livre by done. rewrite split_aux_sep by done.
    by rewrite IH.
Qed.

Lemma bloco_fonte_livre (i : Z) (r : item) :
  sem_quebra r → Forall (λ l, livre nl l = true) (bloco_fonte i r).
Proof.
  intros Hr. unfold sem_quebra in Hr. rewrite !Forall_cons in Hr.
  destruct Hr as (Hurl & Htit & Hdat & Htre & _).
  assert (∀ v : str, 10 ∉ v → livre nl v = true) as Hv.
  { intros v Hv. by apply (livre_head _ _ 10). }
  pose proof (Hv _ (str_of_int_sem 10 i ltac:(done) ltac:(done))) as Hi.
  unfold bloco_fonte, cat.
  repeat (apply Forall_cons; split; [|]); try apply Forall_nil;
    try reflexivity;
    (apply livre_concat;
     repeat (apply Forall_cons; split;
             [first [assumption | by apply Hv | reflexivity]|]);
     constructor).
Qed.

Lemma blocos_livres (rs : list item) (start : Z) :
  Forall sem_quebra rs →
  Forall (λ l, livre nl l = true)
    (concat (imap (λ k r, bloco_fonte (Z.of_nat k + start) r) rs)).
Proof.
  revert start. induction rs as [|r rs IH]; intros start Hrs; [constructor|].
  apply Forall_cons in Hrs as [Hr Hrs]. cbn [imap concat].
  apply Forall_app. split; [by apply bloco_fonte_livre|].
  rewrite (imap_ext _ (λ k r, bloco_fonte (Z.of_nat k + (start + 1)) r))
    by (intros; simpl; f_equal; lia).
  by apply IH.
Qed.

(** X16. For one result or more, none of whose texts holds a line feed,
    the text for the prompt cut at its line feeds gives back exactly six
    lines an item, in the order of the results: the first with the
    citation index from 1, the fifth with at most the first 800 characters
    of the content ("N/D" when the item has none), the sixth empty, so
    that the text ends with a line feed. *)
Theorem formatar_evidencias_para_prompt_blocks (evidencias : Evidencias)
    (rs : list item) :
  results evidencias = Some rs →
  rs ≠ [] →
  Forall sem_quebra rs →
  str_split nl (formatar_evidencias_para_prompt evidencias)
  = concat (imap (λ k r, bloco_fonte (Z.of_nat k + 1) r) rs)
  ∧ length (str_split nl (formatar_evidencias_para_prompt evidencias))
    = (6 * length rs)%nat
  ∧ (∃ corpo, formatar_evidencias_para_prompt evidencias = corpo ++ nl)
  ∧ (∀ k r, rs !! k = Some r →
       str_split nl (formatar_evidencias_para_prompt evidencias)
         !! (6 * k)%nat
       = Some (cat [u "--- FONTE ["; str_of_int (Z.of_nat k + 1); u "] ---"])
       ∧ ∃ trecho,
           str_split nl (formatar_evidencias_para_prompt evidencias)
             !! (6 * k + 4)%nat
           = Some (cat [u "Conteúdo relevante: "; trecho])
           ∧ (length trecho ≤ 800)%nat
           ∧ trecho `prefix_of` get r "content" (u "N/D")).
Proof.
  intros Hres Hne Hrs.
  set (linhas := concat (imap (λ k r, bloco_fonte (Z.of_nat k + 1) r) rs)).
  assert (formatar_evidencias_para_prompt evidencias = join nl linhas) as Hf.
  { unfold formatar_evidencias_para_prompt. rewrite Hres. simpl default.
    destruct rs as [|r rs'] eqn:Heq; [done|]. by rewrite blocos_fold. }
  assert (str_split nl (formatar_evidencias_para_prompt evidencias) = linhas)
    as Hs.
  { rewrite Hf. pose proof (blocos_livres rs 1 Hrs) as Hl. fold linhas in Hl.
    destruct linhas as [|l ls] eqn:Hlin.
    - destruct rs; [done|discriminate].
    - apply Forall_cons in Hl as [Hl Hls]. unfold str_split.
      by rewrite split_join. }
  rewrite Hs. split; [done|]. split; [apply blocos_length|]. split.
  - rewrite Hf. unfold linhas.
    destruct (exists_last Hne) as (rs' & r & ->).
    rewrite imap_app, concat_app. cbn [imap concat].
    rewrite app_nil_r.
    change (bloco_fonte (Z.of_nat (length rs' + 0) + 1) r)
      with (removelast (bloco_fonte (Z.of_nat (length rs' + 0) + 1) r)
            ++ [[]]).
    rewrite app_assoc, join_snoc; [|by intros [_ Hn]%app_nil].
    eexists. by rewrite app_nil_r.
  - intros k r Hk. split.
    + replace (6 * k)%nat with (6 * k + 0)%nat by lia.
      unfold linhas. rewrite (blocos_lookup rs 1 k 0 r Hk) by lia.
      reflexivity.
    + exists (take 800 (get r "content" (u "N/D"))).
      unfold linhas. rewrite (blocos_lookup rs 1 k 4 r Hk) by lia.
      split; [reflexivity|]. split; [rewrite length_take; lia|].
      apply prefix_take.
Qed.

(* ===================================================================== *)
(** ** The Markdown file                                                 *)
(* ===================================================================== *)

Section MdCompleto.
Context `{Runtime}.

Lemma extrair_metricas_dom (laudo : str) :
  dom (extrair_metricas laudo)
  = ({[ "score"; "confianca"; "veredito"; "conspir_media" ]} : gset string).
Proof.
  unfold extrair_metricas.
  destruct (re_search pat_score laudo) as [m1|];
    destruct (re_search pat_confianca laudo) as [m2|];
    destruct (re_search pat_veredito laudo) as [m3|];
    destruct (re_search pat_conspir laudo) as [m4|];
    rewrite ?dom_insert_L, dom_singleton_L; set_solver.
Qed.

(** X17. The three subscripts of the Markdown text cannot raise
    [KeyError] on what [extrair_metricas] returns, whatever the report;
    they do on a [dict] that lacks one of the keys score, veredito,
    confianca. The text written ends with the technical report as it was
    given, followed by a line feed. *)
Theorem md_completo_keys (tecnicas fato data_geracao resumo laudo_md : str) :
  (∀ laudo, is_Some (md_completo tecnicas fato data_geracao
                       (extrair_metricas laudo) resumo laudo_md))
  ∧ (∀ metricas,
       md_completo tecnicas fato data_geracao metricas resumo laudo_md = None
       ↔ metricas !! "score" = None ∨ metricas !! "veredito" = None
         ∨ metricas !! "confianca" = None)
  ∧ (∀ metricas texto,
       md_completo tecnicas fato data_geracao metricas resumo laudo_md
       = Some texto →
       (laudo_md ++ nl) `suffix_of` texto).
Proof.
  split; [|split].
  - intros laudo. unfold md_completo.
    destruct (extrair_metricas_fields laudo) as (-> & -> & -> & _).
    simpl. by eexists.
  - intros metricas. unfold md_completo.
    destruct (metricas !! "score") as [s|]; simpl; [|by split; auto].
    destruct (metricas !! "veredito") as [v|]; simpl; [|by split; auto].
    destruct (metricas !! "confianca") as [c|]; simpl; [|by split; auto].
    split; [done|]. by intros [?|[?|?]].
  - intros metricas texto. unfold md_completo.
    destruct (metricas !! "score") as [s|]; cbn [mbind option_bind]; [|done].
    destruct (metricas !! "veredito") as [v|]; cbn [mbind option_bind];
      [|done].
    destruct (metricas !! "confianca") as [c|]; cbn [mbind option_bind];
      [|done].
    intros Heq. apply (inj Some) in Heq. rewrite <- Heq.
    unfold cat. cbn [concat].
    do 38 apply suffix_app_r. by rewrite app_nil_r.
Qed.

End MdCompleto.

(* ===================================================================== *)
(** ** The run as a whole                                                *)
(* ===================================================================== *)

(* ===================================================================== *)
(** ** The run                                                           *)
(* ===================================================================== *)

Lemma notice_count_app {Exc Delay : Type} (a b : list (event Exc Delay)) :
  notice_count (a ++ b) = (notice_count a + notice_count b)%nat.
Proof. unfold notice_count. by rewrite List.filter_app, length_app. Qed.

(** A decorated call ends in a [return] or in a [raise], after two
    notices at most. *)
Lemma com_retry_three {World Exc Val : Type} (is_Exception : Exc → bool)
    (func : World → outcome Exc Val * World)
    (console_print : Z → Exc → Q → World → option Exc * World)
    (time_sleep : Q → World → option Exc * World) (d : Q) (w : World) :
  ∃ c w' out,
    com_retry is_Exception func console_print time_sleep 3 d w = (c, w', out)
    ∧ c ≠ ReturnsNone
    ∧ (notice_count out ≤ 2)%nat.
Proof.
  destruct (wrapper_loop_ends is_Exception func console_print time_sleep
              3 d 2 0 w [])
    as (es & w0 & w1 & w' & Hlen & _ & Hend); [done|].
  unfold com_retry. change (range 3) with (Z.of_nat <$> seq 0 3).
  destruct Hend as [(v & _ & ->)|[(e & _ & ->)|[(e & x & Hl & _ & _ & ->)
                    |(e & x & w2 & Hl & _ & _ & _ & ->)]]];
    eexists _, _, _; (split; [done|]); (split; [done|]);
    cbn [app]; rewrite ?notice_count_app, notice_count_notices;
    [lia..|]. 
  unfold notice_count. simpl. lia.
Qed.

Section PipelineProperties.
Context `{Runtime} {World Exc : Type}.
Variable is_Exception : Exc → bool.
Variable console_print : Z → Exc → Q → World → option Exc * World.
Variable time_sleep : Q → World → option Exc * World.
Variable painel_inicial : str → World → option Exc * World.
Variable progress_enter : World → option Exc * World.
Variable progress_exit : World → option Exc * World.
Variable progress_add_task : str → World → outcome Exc nat * World.
Variable progress_update : nat → str → World → option Exc * World.
Variable buscar_web_body : str → World → outcome Exc Evidencias * World.
Variable gerar_laudo_ia_body :
  str → Evidencias → World → outcome Exc str * World.
Variable gerar_resumo_executivo_body :
  str → World → outcome Exc str * World.
Variable exportar_laudo :
  str → str → str → Evidencias → gmap string value → World →
  outcome Exc (str * str * str) * World.
Variable exibir_painel_resultados :
  str → gmap string value → str → str → str → Z → World →
  option Exc * World.

Local Abbreviation busca := (buscar_web is_Exception console_print time_sleep
                           buscar_web_body).
Local Abbreviation gera := (gerar_laudo_ia is_Exception console_print time_sleep
                          gerar_laudo_ia_body).
Local Abbreviation resume := (gerar_resumo_executivo is_Exception console_print
                            time_sleep gerar_resumo_executivo_body).
Local Abbreviation corrida :=
  (executar_investigacao is_Exception console_print time_sleep
     painel_inicial progress_enter progress_exit progress_add_task
     progress_update buscar_web_body gerar_laudo_ia_body
     gerar_resumo_executivo_body exportar_laudo exibir_painel_resultados).

Lemma decorada_ends {A : Type} (body : World → outcome Exc A * World)
    (w : World) (out : list (event Exc Q)) :
  ∃ c w' out',
    decorada is_Exception console_print time_sleep body w out
    = (c, w', out ++ out')
    ∧ c ≠ ReturnsNone
    ∧ (notice_count out' ≤ 2)%nat.
Proof.
  unfold decorada.
  destruct (com_retry_three is_Exception body console_print time_sleep 2 w)
    as (c & w' & out' & -> & Hc & Hn).
  by exists c, w', out'.
Qed.


(** The steps of a run that returns, one after the other. *)
Lemma seguido_Returns {A B : Type} (m : @run World Exc A) (k : A → @run World Exc B)
    (w : World) (out : list (event Exc Q)) (b : B) (w' : World)
    (out' : list (event Exc Q)) :
  seguido m k w out = (Returns b, w', out') →
  ∃ a w1 out1, m w out = (Returns a, w1, out1)
               ∧ k a w1 out1 = (Returns b, w', out').
Proof.
  unfold seguido. destruct (m w out) as [[[a| |e] w1] out1]; try done.
  intros Hk. by exists a, w1, out1.
Qed.

Lemma faz_Returns (op : World → option Exc * World) (w : World)
    (out : list (event Exc Q)) (v : unit) (w' : World)
    (out' : list (event Exc Q)) :
  faz op w out = (Returns v, w', out') → op w = (None, w') ∧ out' = out.
Proof.
  unfold faz. destruct (op w) as [[x|] w1]; [done|]. by intros [= _ -> ->].
Qed.

Lemma chama_Returns {A : Type} (op : World → outcome Exc A * World)
    (w : World) (out : list (event Exc Q)) (a : A) (w' : World)
    (out' : list (event Exc Q)) :
  chama op w out = (Returns a, w', out') →
  op w = (Returned a, w') ∧ out' = out.
Proof.
  unfold chama. destruct (op w) as [[a'|e] w1]; [|done].
  by intros [= -> -> ->].
Qed.

Lemma com_progress_Returns {A : Type} (bloco : @run World Exc A) (w : World)
    (out : list (event Exc Q)) (a : A) (w' : World)
    (out' : list (event Exc Q)) :
  com_progress progress_enter progress_exit bloco w out
  = (Returns a, w', out') →
  ∃ w1 w2, progress_enter w = (None, w1)
           ∧ bloco w1 out = (Returns a, w2, out')
           ∧ progress_exit w2 = (None, w').
Proof.
  unfold com_progress, seguido, faz.
  destruct (progress_enter w) as [[x|] w1] eqn:He; [done|].
  destruct (bloco w1 out) as [[c w2] out2] eqn:Hb.
  destruct (progress_exit w2) as [[x|] w3] eqn:Hx; [by intros [=]|].
  intros [= -> -> ->]. by exists w1, w2.
Qed.

Lemma limitada_mono {A : Type} (k k' : nat) (m : @run World Exc A) :
  (k ≤ k')%nat → limitada k m → limitada k' m.
Proof.
  intros Hk Hm w out. destruct (Hm w out) as (c & w' & out' & ? & ? & ?).
  exists c, w', out'. split; [done|]. split; [done|lia].
Qed.

Lemma limitada_faz (op : World → option Exc * World) : limitada 0 (faz op).
Proof.
  intros w out. unfold faz. destruct (op w) as [[x|] w'];
    eexists _, w', []; by rewrite app_nil_r.
Qed.

Lemma limitada_chama {A : Type} (op : World → outcome Exc A * World) :
  limitada 0 (chama op).
Proof.
  intros w out. unfold chama. destruct (op w) as [[a|e] w'];
    eexists _, w', []; by rewrite app_nil_r.
Qed.

Lemma limitada_retorna {A : Type} (a : A) :
  limitada 0 (retorna a : @run World Exc A).
Proof. intros w out. exists (Returns a), w, []. by rewrite app_nil_r. Qed.

Lemma limitada_decorada {A : Type} (body : World → outcome Exc A * World) :
  limitada 2 (decorada is_Exception console_print time_sleep body).
Proof. intros w out. apply decorada_ends. Qed.

Lemma limitada_seguido {A B : Type} (k1 k2 : nat) (m : @run World Exc A)
    (k : A → @run World Exc B) :
  limitada k1 m → (∀ a, limitada k2 (k a)) →
  limitada (k1 + k2) (seguido m k).
Proof.
  intros Hm Hk w out. unfold seguido.
  destruct (Hm w out) as (c & w1 & out1 & -> & Hc & Hn).
  destruct c as [a| |e]; [|done|].
  - destruct (Hk a w1 (out ++ out1)) as (c & w2 & out2 & -> & Hc2 & Hn2).
    exists c, w2, (out1 ++ out2). rewrite app_assoc.
    split; [done|]. split; [done|]. rewrite notice_count_app. lia.
  - exists (Raises e), w1, out1. split; [done|]. split; [done|lia].
Qed.

Lemma limitada_com_progress {A : Type} (k : nat) (bloco : @run World Exc A) :
  limitada k bloco →
  limitada k (com_progress progress_enter progress_exit bloco).
Proof.
  intros Hb. unfold com_progress.
  replace k with (0 + k)%nat by done.
  apply limitada_seguido; [apply limitada_faz|]. intros _ w out.
  destruct (Hb w out) as (c & w1 & out1 & -> & Hc & Hn).
  destruct (progress_exit w1) as [[x|] w2].
  - by exists (Raises x), w2, out1.
  - by exists c, w2, out1.
Qed.

Lemma limitada_executar_investigacao (fato : str) :
  limitada 6 (corrida fato).
Proof.
  unfold executar_investigacao.
  eapply limitada_mono; cycle 1.
  - repeat first
      [ apply limitada_retorna
      | apply limitada_faz
      | apply limitada_chama
      | apply limitada_decorada
      | apply limitada_com_progress
      | eapply limitada_seguido; [|intros ?]
      | match goal with |- limitada _ (let '(_, _) := ?r in _) =>
          destruct r as [[? [[? ?] ?]] ?] end ].
  - simpl. lia.
Qed.

(** X18. A run returns exactly when every step returns in its turn: the
    opening panel, the display, and under it the search, the generation on
    the evidence found, the summary of the report generated and the export
    of all three, each with its task of the display, then the closing of
    the display and the panel of results. What it returns is then the
    metrics of the report, a [dict] with exactly the four keys. It never
    returns [None], and prints six retry notices at most. *)
Theorem executar_investigacao_outcome (fato : str) (w : World) :
  (∀ m w' out,
     corrida fato w [] = (Returns m, w', out)
     ↔ ∃ w1 w2 t1 w3 evidencias w4 o1 w5 t2 w6 laudo w7 o2 w8 t3 w9 resumo
         w10 o3 w11 t4 w12 md_file html_file pdf_file w13 w14 w15,
         painel_inicial fato w = (None, w1)
         ∧ progress_enter w1 = (None, w2)
         ∧ progress_add_task tarefa_busca w2 = (Returned t1, w3)
         ∧ busca fato w3 [] = (Returns evidencias, w4, o1)
         ∧ progress_update t1
             (feita_busca
                (Z.of_nat (length (default [] (results evidencias))))) w4
           = (None, w5)
         ∧ progress_add_task tarefa_laudo w5 = (Returned t2, w6)
         ∧ gera fato evidencias w6 o1 = (Returns laudo, w7, o2)
         ∧ progress_update t2 feita_laudo w7 = (None, w8)
         ∧ progress_add_task tarefa_resumo w8 = (Returned t3, w9)
         ∧ resume laudo w9 o2 = (Returns resumo, w10, o3)
         ∧ progress_update t3 feita_resumo w10 = (None, w11)
         ∧ progress_add_task tarefa_exportacao w11 = (Returned t4, w12)
         ∧ exportar_laudo fato laudo resumo evidencias
             (extrair_metricas laudo) w12
           = (Returned (md_file, html_file, pdf_file), w13)
         ∧ progress_update t4 feita_exportacao w13 = (None, w14)
         ∧ progress_exit w14 = (None, w15)
         ∧ exibir_painel_resultados fato (extrair_metricas laudo) md_file
             html_file pdf_file
             (Z.of_nat (length (default [] (results evidencias)))) w15
           = (None, w')
         ∧ m = extrair_metricas laudo
         ∧ out = o3
         ∧ dom m = ({[ "score"; "confianca"; "veredito"; "conspir_media" ]}
                    : gset string))
  ∧ (corrida fato w []).1.1 ≠ ReturnsNone
  ∧ (notice_count (corrida fato w []).2 ≤ 6)%nat.
Proof.
  split; [|split].
  - intros m w' out. split.
    + unfold executar_investigacao.
      intros (v0 & w1 & x1 & [H1 ->]%faz_Returns & Hr)%seguido_Returns.
      apply seguido_Returns in Hr
        as ([[metricas [[md_file html_file] pdf_file]] n_fontes] & w15 & x15
            & Hp & Hr).
      apply com_progress_Returns in Hp as (w2 & w14 & H2 & Hb & H15).
      apply seguido_Returns in Hb
        as (t1 & w3 & x3 & [H3 ->]%chama_Returns & Hb).
      apply seguido_Returns in Hb as (evidencias & w4 & o1 & H4 & Hb).
      apply seguido_Returns in Hb
        as (v5 & w5 & x5 & [H5 ->]%faz_Returns & Hb).
      apply seguido_Returns in Hb
        as (t2 & w6 & x6 & [H6 ->]%chama_Returns & Hb).
      apply seguido_Returns in Hb as (laudo & w7 & o2 & H7 & Hb).
      apply seguido_Returns in Hb
        as (v8 & w8 & x8 & [H8 ->]%faz_Returns & Hb).
      apply seguido_Returns in Hb
        as (t3 & w9 & x9 & [H9 ->]%chama_Returns & Hb).
      apply seguido_Returns in Hb as (resumo & w10 & o3 & H10 & Hb).
      apply seguido_Returns in Hb
        as (v11 & w11 & x11 & [H11 ->]%faz_Returns & Hb).
      apply seguido_Returns in Hb
        as (t4 & w12 & x12 & [H12 ->]%chama_Returns & Hb).
      apply seguido_Returns in Hb
        as ([[md html] pdf] & w13 & x13 & [H13 ->]%chama_Returns & Hb).
      apply seguido_Returns in Hb
        as (v14 & w14' & x14 & [H14 ->]%faz_Returns & Hb).
      injection Hb as <- <- <- <- <- -> ->.
      apply seguido_Returns in Hr
        as (v16 & w16 & x16 & [H16 ->]%faz_Returns & Hr).
      injection Hr as <- <- <-.
      exists w1, w2, t1, w3, evidencias, w4, o1, w5, t2, w6, laudo, w7, o2,
        w8, t3, w9, resumo, w10, x15, w11, t4, w12, md, html, pdf, w13.
      exists w14, w15.
      repeat (split; [done|]). apply extrair_metricas_dom.
    + intros (w1 & w2 & t1 & w3 & evidencias & w4 & o1 & w5 & t2 & w6 & laudo
              & w7 & o2 & w8 & t3 & w9 & resumo & w10 & o3 & w11 & t4 & w12
              & md & html & pdf & w13 & w14 & w15 & H1 & H2 & H3 & H4 & H5
              & H6 & H7 & H8 & H9 & H10 & H11 & H12 & H13 & H14 & H15 & H16
              & -> & -> & _).
      unfold executar_investigacao, com_progress, seguido, faz, chama,
        retorna.
      rewrite H1, H2, H3, H4, H5, H6, H7, H8, H9, H10, H11, H12, H13, H14.
      by rewrite H15, H16.
  - destruct (limitada_executar_investigacao fato w [])
      as (c & w' & out & -> & Hc & _). done.
  - destruct (limitada_executar_investigacao fato w [])
      as (c & w' & out & -> & _ & Hn). done.
Qed.

(** X19. When the opening panel is printed and the display started, and
    the search then fails on its three attempts, the run ends with the
    third error (with the error of the closing of the display when that
    raises), in the world the closing left, after two notices: no report
    is generated, summarised or exported. *)
Theorem executar_investigacao_search_fails (fato : str)
    (w w1 w2 w3 w4 w5 w6 : World) (t1 : nat) (e1 e2 e3 : Exc)
    (x : option Exc) :
  painel_inicial fato w = (None, w1) →
  progress_enter w1 = (None, w2) →
  progress_add_task tarefa_busca w2 = (Returned t1, w3) →
  fails (buscar_web_body fato) console_print time_sleep 2%Q 1 w3 [e1; e2] w4 →
  is_Exception e1 = true →
  is_Exception e2 = true →
  buscar_web_body fato w4 = (Raised e3, w5) →
  progress_exit w5 = (x, w6) →
  corrida fato w [] = (Raises (default e3 x), w6, notices 1 2%Q [e1; e2]).
Proof.
  intros H1 H2 H3 Hf He1 He2 H4 H5.
  inversion Hf as [|? ? ? wa wb wc ? ? Hc1 Hp1 Hs1 Hf1]; subst.
  inversion Hf1 as [|? ? ? wd we wf ? ? Hc2 Hp2 Hs2 Hf2]; subst.
  inversion Hf2; subst.
  unfold executar_investigacao, com_progress, seguido, faz, chama.
  rewrite H1, H2, H3. unfold buscar_web, decorada, com_retry.
  change (range 3) with [0; 1; 2]%Z. cbn [wrapper_loop].
  rewrite Hc1, He1. change (0 =? 3 - 1)%Z with false. cbv iota.
  change (0 + 1)%Z with 1%Z. rewrite Hp1, Hs1.
  rewrite Hc2, He2. change (1 =? 3 - 1)%Z with false. cbv iota.
  change (1 + 1)%Z with 2%Z in *. rewrite Hp2, Hs2.
  rewrite H4. change (2 =? 3 - 1)%Z with true.
  destruct (is_Exception e3); cbv iota; rewrite H5; by destruct x.
Qed.

(** X21. A failure of the summary is not swallowed: when every step
    before it returned and the decorated call of the summary raises, the
    run raises that error (the error of the closing of the display when
    that raises) in the world the closing left: nothing is exported and
    no metrics are returned. *)
Theorem executar_investigacao_summary_fails (fato : str)
    (w w1 w2 w3 w4 w5 w6 w7 w8 w9 w10 w11 : World) (t1 t2 t3 : nat)
    (evidencias : Evidencias) (laudo : str) (e : Exc) (x : option Exc)
    (o1 o2 o3 : list (event Exc Q)) :
  painel_inicial fato w = (None, w1) →
  progress_enter w1 = (None, w2) →
  progress_add_task tarefa_busca w2 = (Returned t1, w3) →
  busca fato w3 [] = (Returns evidencias, w4, o1) →
  progress_update t1
    (feita_busca (Z.of_nat (length (default [] (results evidencias))))) w4
  = (None, w5) →
  progress_add_task tarefa_laudo w5 = (Returned t2, w6) →
  gera fato evidencias w6 o1 = (Returns laudo, w7, o2) →
  progress_update t2 feita_laudo w7 = (None, w8) →
  progress_add_task tarefa_resumo w8 = (Returned t3, w9) →
  resume laudo w9 o2 = (Raises e, w10, o3) →
  progress_exit w10 = (x, w11) →
  corrida fato w [] = (Raises (default e x), w11, o3).
Proof.
  intros H1 H2 H3 H4 H5 H6 H7 H8 H9 H10 H11.
  unfold executar_investigacao, com_progress, seguido, faz, chama.
  rewrite H1, H2, H3, H4, H5, H6, H7, H8, H9, H10, H11. by destruct x.
Qed.

End PipelineProperties.

(* ===================================================================== *)
(** ** The properties on examples                                        *)
(* ===================================================================== *)

(** X1, with three attempts. *)
Lemma com_retry_returns_or_raises_witness :
  ∃ (w0 w' : nat) (out : list (event nat Z)),
    (∃ v, falha_n_vezes 2 w0 = (Returned v, w')
          ∧ com_retry sempre_Exception (falha_n_vezes 2) console_recusa_0
              espera_termina 3 2%Z 0%nat
            = (Returns v, w', out))
    ∨ (∃ e, com_retry sempre_Exception (falha_n_vezes 2) console_recusa_0
              espera_termina 3 2%Z 0%nat
            = (Raises e, w', out)
          ∧ (falha_n_vezes 2 w0 = (Raised e, w')
             ∨ (∃ i e0, console_recusa_0 i e0 2%Z w0 = (Some e, w'))
             ∨ espera_termina 2%Z w0 = (Some e, w'))).
Proof.
  apply (com_retry_returns_or_raises sempre_Exception console_recusa_0
           espera_termina (falha_n_vezes 2) 3 2%Z 0%nat).
  lia.
Defined.

(** X3: an [Exception] first, retried, then an interrupt, with one
    attempt left. *)
Lemma com_retry_not_exception_witness :
  com_retry exceto_99 interrompida console_aceita espera_termina 3 2%Z 0%nat
  = (Raises 99%nat, 2%nat, notices 1 2%Z [7%nat]).
Proof.
  apply (com_retry_not_exception exceto_99 console_aceita espera_termina
           interrompida 3 2%Z 0%nat 1%nat 2%nat [7%nat] 99%nat).
  - repeat constructor.
  - repeat (econstructor; try reflexivity).
  - simpl. lia.
  - reflexivity.
  - reflexivity.
Defined.

(** X20: the notice of the first failure is refused; two attempts were
    left and the operation would have returned on the third. *)
Lemma com_retry_notice_refused_witness :
  com_retry sempre_Exception (falha_n_vezes 2) console_recusa_0
    espera_termina 3 2%Z 0%nat
  = (Raises 500%nat, 1%nat, notices 1 2%Z []).
Proof.
  apply (com_retry_notice_refused sempre_Exception console_recusa_0
           espera_termina (falha_n_vezes 2) 3 2%Z 0%nat 0%nat 1%nat 1%nat
           [] 0%nat 500%nat).
  - constructor.
  - constructor.
  - simpl. lia.
  - reflexivity.
  - reflexivity.
  - reflexivity.
Defined.

(** X7: the score after a note. *)
Lemma extrair_metricas_score_found_witness :
  @extrair_metricas latin1
    (u "Nota: " ++ u "SCORE_DESINFORMACAO:" ++ u " " ++ u "95" ++ nl)
    !! "score"
  = Some (VStr (u "95")).
Proof.
  apply (@extrair_metricas_score_found latin1
           (u "Nota: ") (u " ") (u "95") nl).
  - intros i Hi [k Hk].
    do 6 (destruct i as [|i]; [by vm_compute in Hk|]).
    vm_compute in Hi. lia.
  - vm_compute. by repeat constructor.
  - done.
  - vm_compute. by repeat constructor.
  - reflexivity.
Defined.

(** X8: a verdict in lower case, kept as it stands. *)
Lemma extrair_metricas_word_found_witness :
  @extrair_metricas latin1
    (u "**" ++ u "VEREDITO_CODIGO:" ++ u " " ++ u "falso" ++ u "**")
    !! "veredito"
  = Some (VStr (u "falso")).
Proof.
  apply (@extrair_metricas_word_found latin1 "veredito"
           (u "VEREDITO_CODIGO:") (u "**") (u " ") (u "falso") (u "**")).
  - rewrite !elem_of_cons. auto.
  - intros i Hi [k Hk].
    do 2 (destruct i as [|i]; [by vm_compute in Hk|]).
    vm_compute in Hi. lia.
  - vm_compute. by repeat constructor.
  - done.
  - vm_compute. by repeat constructor.
  - reflexivity.
  - reflexivity.
Defined.

(** X9: a row whose label is followed by the bar. *)
Lemma extrair_metricas_conspir_first_witness :
  @extrair_metricas latin1
    (u "| " ++ u "MÉDIA CONSPIR" ++ u " " ++ u "|" ++ u " " ++ u "**"
     ++ u "7" ++ u ".5" ++ u "/10" ++ u "** | |")
    !! "conspir_media"
  = Some (VStr (u "7" ++ u ".5" ++ u "/10")).
Proof.
  apply (@extrair_metricas_conspir_first latin1
           (u "| ") (u " ") (u " ") (u "**") (u "7") (u ".5") (u "** | |")).
  - intros i Hi [k Hk].
    do 2 (destruct i as [|i]; [by vm_compute in Hk|]).
    vm_compute in Hi. lia.
  - vm_compute. by repeat constructor.
  - vm_compute. by repeat constructor.
  - rewrite !elem_of_cons. auto.
  - done.
  - vm_compute. by repeat constructor.
  - right. exists (u "5"). split; [reflexivity|]. split; [done|].
    vm_compute. by repeat constructor.
Defined.

(** X10: the slash of a claim is not in its folder name. *)
Lemma sanitizar_nome_alphabet_witness :
  (@in_category latin1 CatWord 97 = true ∨ py_isspace 97 = true ∨ 97 = 45)
  ∧ 97 ∉ [32; 47; 92; 46; 58; 42; 63; 34; 60; 62; 124; 0].
Proof.
  apply (@sanitizar_nome_alphabet latin1 (u "a/b") 97).
  vm_compute. constructor.
Defined.

(** X11: a claim of punctuation. *)
Lemma sanitizar_nome_nothing_safe_witness :
  @sanitizar_nome latin1 (u " ?!... ") = [].
Proof.
  apply (@sanitizar_nome_nothing_safe latin1 (u " ?!... ")).
  vm_compute. repeat constructor; (by left) || (by right).
Defined.

(** X12: the paths of a claim. *)
Lemma caminhos_do_laudo_inside_witness :
  @caminhos_do_laudo latin1 config_exemplo (u "A lua é de queijo?")
    (u "20240102_030405")
  = (u "laudos_periciais/A_lua_é_de_queijo/laudo_pericial_20240102_030405.md",
     u "laudos_periciais/A_lua_é_de_queijo/laudo_pericial_20240102_030405.html",
     u "laudos_periciais/A_lua_é_de_queijo/laudo_pericial_20240102_030405.pdf").
Proof.
  refine (proj2 (proj2 (@caminhos_do_laudo_inside latin1 config_exemplo
                          (u "A lua é de queijo?") (u "20240102_030405")
                          _ _))); by vm_compute.
Defined.

(** X14: 20 and 21. *)
Lemma classificar_score_monotone_witness :
  ∃ k1 k2,
    @classificar_score latin1 (u "20") = banda k1
    ∧ @classificar_score latin1 (u "21") = banda k2
    ∧ (1 ≤ k1 ≤ k2)%nat ∧ (k2 ≤ 5)%nat.
Proof.
  apply (@classificar_score_monotone latin1 (u "20") (u "21") 20 21);
    [reflexivity | reflexivity | lia].
Defined.

(** X16: three results. *)
Lemma formatar_evidencias_para_prompt_blocks_witness :
  length (str_split nl (formatar_evidencias_para_prompt
                          {| results := Some tres_fontes; answer := None |}))
  = 18%nat.
Proof.
  refine (proj1 (proj2 (formatar_evidencias_para_prompt_blocks
            {| results := Some tres_fontes; answer := None |} tres_fontes
            _ _ _))); [reflexivity | discriminate |].
  unfold sem_quebra.
  repeat (apply Forall_cons; split); try apply Forall_nil;
    by apply (bool_decide_unpack _).
Defined.

(** X19: a search that always fails. *)
Lemma executar_investigacao_search_fails_witness :
  @executar_investigacao nat nat sempre_Exception console_aceita
    espera_termina (λ _, mostra) mostra mostra nova_tarefa (λ _ _, mostra)
    busca_que_falha laudo_curto resumo_que_falha exporta
    (λ _ _ _ _ _ _, mostra) latin1 (u "A lua é de queijo?") 0%nat []
  = (Raises 2%nat, 3%nat, notices 1 2%Q [0%nat; 1%nat]).
Proof.
  apply (@executar_investigacao_search_fails latin1 nat nat sempre_Exception
           console_aceita espera_termina (λ _, mostra) mostra mostra
           nova_tarefa (λ _ _, mostra) busca_que_falha laudo_curto
           resumo_que_falha exporta (λ _ _ _ _ _ _, mostra)
           (u "A lua é de queijo?") 0%nat 0%nat 0%nat 0%nat 2%nat 3%nat 3%nat
           0%nat 0%nat 1%nat 2%nat None);
    try reflexivity.
  repeat (econstructor; try reflexivity).
Defined.

(** X21: the search and the generation return at their first call and
    the summary fails three times. *)
Lemma executar_investigacao_summary_fails_witness :
  @executar_investigacao nat nat sempre_Exception console_aceita
    espera_termina (λ _, mostra) mostra mostra nova_tarefa (λ _ _, mostra)
    busca_vazia laudo_curto resumo_que_falha exporta
    (λ _ _ _ _ _ _, mostra) latin1 (u "A lua é de queijo?") 0%nat []
  = (Raises 4%nat, 5%nat, notices 1 2%Q [2%nat; 3%nat]).
Proof.
  apply (@executar_investigacao_summary_fails latin1 nat nat sempre_Exception
           console_aceita espera_termina (λ _, mostra) mostra mostra
           nova_tarefa (λ _ _, mostra) busca_vazia laudo_curto
           resumo_que_falha exporta (λ _ _ _ _ _ _, mostra)
           (u "A lua é de queijo?") 0%nat 0%nat 0%nat 0%nat 1%nat 1%nat 1%nat
           2%nat 2%nat 2%nat 5%nat 5%nat 0%nat 0%nat 0%nat
           {| results := Some []; answer := None |}
           (u "SCORE_DESINFORMACAO: 95") 4%nat None [] []
           (notices 1 2%Q [2%nat; 3%nat]));
    reflexivity.
Defined.
